(** * Missing-token reconciliation: a shallow embedding of
    [src/missing_tokens.py] and the properties its specification states.

    The script fetches the token addresses that lack metadata on the two
    engines, resolves every distinct address once against the chain,
    skips the addresses whose resolution raises, and writes one text file
    per engine.

    Layout: Python string helpers, the data model ([Network], [Address],
    [TokenDetails], [MissingTokenResults]), the collaborators, the effect
    monad in which the script runs, the script's functions in source
    order, the vocabulary in which the properties are stated, and then the
    lemmas and theorems, closed by concrete runs. *)

From Stdlib Require Import ZArith String Ascii List DecimalString Lia.
From stdpp Require Import gmap strings list fin_maps fin_sets.

Open Scope string_scope.
Open Scope list_scope.
Open Scope nat_scope.

(** ** Python string operations used by the script *)

(** [c.lower()] on one ASCII character: [A]..[Z] move to [a]..[z]. *)
Definition ascii_lower (c : ascii) : ascii :=
  let n := nat_of_ascii c in
  if (65 <=? n)%nat && (n <=? 90)%nat then ascii_of_nat (n + 32) else c.

(** [s.lower()]. Addresses are ASCII, which is the range modelled. *)
Fixpoint lower (s : string) : string :=
  match s with
  | EmptyString => EmptyString
  | String c s' => String (ascii_lower c) (lower s')
  end.

(** [s[n:]]: the string without its first [n] characters (all of it gone
    when it is shorter). *)
Fixpoint slice_from (n : nat) (s : string) : string :=
  match n, s with
  | O, _ => s
  | S n', String _ s' => slice_from n' s'
  | S _, EmptyString => EmptyString
  end.

(** [str(i)] / [f"{i}"] for a Python [int]. *)
Definition str_of_int (i : Z) : string := NilZero.string_of_int (Z.to_int i).

(** The tab character of the [\t] escapes. *)
Definition TAB : string := String (ascii_of_nat 9) EmptyString.

(** The newline character of the [\n] escapes. *)
Definition NL : string := String (ascii_of_nat 10) EmptyString.

(** ** Exceptions and results *)

(** The exceptions the script can meet. [OtherError] stands for whatever a
    collaborator raises (a node error, a contract without [symbol], a
    query-service failure): the script never inspects it. *)
Inductive exn : Type :=
| ValueError (msg : string)
| KeyError (key : string)
| OtherError (msg : string).

(** A Python expression either yields a value or raises. *)
Inductive result (A : Type) : Type :=
| Ok (a : A)
| Raise (e : exn).
Arguments Ok {A} a.
Arguments Raise {A} e.

Definition result_bind {A B} (r : result A) (k : A -> result B) : result B :=
  match r with Ok a => k a | Raise e => Raise e end.

(** The successful value, when there is one. *)
Definition to_option {A} (r : result A) : option A :=
  match r with Ok a => Some a | Raise _ => None end.

(** ** Data model *)

(** Modelled from the spec: the [Network] enumeration of [src/utils.py], a
    file of the repository that is not among the sources. The spec names a
    mainnet and an alternate (gnosis) network as the supported set and speaks
    of network values outside it; [OTHER] stands for any such value. *)
Inductive Network : Type :=
| MAINNET
| GNOSIS
| OTHER (name : string).

(** [str(chain)], as the messages print it. *)
Definition Network_str (chain : Network) : string :=
  match chain with
  | MAINNET => "Network.MAINNET"
  | GNOSIS => "Network.GNOSIS"
  | OTHER name => name
  end.

(** The supported set of the spec. *)
Definition supported (chain : Network) : bool :=
  match chain with MAINNET | GNOSIS => true | OTHER _ => false end.

(** [duneapi.types.Address]: an object holding the check-summed form of an
    address in its field [address]; equality and hashing go through that
    string, so two [Address] values are the same key exactly when their
    check-summed strings are equal. *)
Record Address : Type := mkAddress { Address_address : string }.

#[global] Instance Address_eq_dec : EqDecision Address.
Proof. solve_decision. Defined.

#[global] Instance Address_countable : Countable Address :=
  inj_countable' Address_address mkAddress (fun a => match a with mkAddress _ => eq_refl end).

(** [str(token)]. *)
Definition Address_str (a : Address) : string := Address_address a.

(** [class TokenDetails]: the attributes [__init__] sets. *)
Record TokenDetails : Type := mkTokenDetails {
  address : string;
  symbol : string;
  decimals : Z;
}.

(** [TokenDetails.as_v1_string]. The Python literal ["\\\\x"] is two
    backslash characters followed by [x]. *)
Definition as_v1_string (self : TokenDetails) (chain : Network) : result string :=
  let '(symbol, decimals, address) := (symbol self, decimals self, address self) in
  match chain with
  | MAINNET =>
      let address_bytea := "\\x" +:+ slice_from 2 address in
      Ok (address_bytea +:+ TAB +:+ symbol +:+ TAB +:+ str_of_int decimals)
  | GNOSIS =>
      Ok ("('" +:+ symbol +:+ "', " +:+ str_of_int decimals
            +:+ ", decode('" +:+ slice_from 2 address +:+ "', 'hex')),")
  | _ => Raise (ValueError ("Incompatible Network " +:+ Network_str chain))
  end.

(** [TokenDetails.as_v2_string]. *)
Definition as_v2_string (self : TokenDetails) : string :=
  "('" +:+ lower (address self) +:+ "', '" +:+ symbol self +:+ "', "
    +:+ str_of_int (decimals self) +:+ "),".

(** The truth value of a list: [False] exactly for the empty one. *)
Definition truthy {A} (l : list A) : bool :=
  match l with [] => false | _ :: _ => true end.

(** [@dataclass MissingTokenResults]. *)
Record MissingTokenResults : Type := mkMissingTokenResults {
  v1 : list Address;
  v2 : list Address;
}.

(** [MissingTokenResults.is_empty]: [not self.v1 and not self.v2]. *)
Definition is_empty (self : MissingTokenResults) : bool :=
  negb (truthy (v1 self)) && negb (truthy (v2 self)).

(** [MissingTokenResults.get_all_tokens]: [set(self.v1 + self.v2)]. *)
Definition get_all_tokens (self : MissingTokenResults) : gset Address :=
  list_to_set (v1 self ++ v2 self).

(** ** Collaborators *)

(** [dune_client.query.Query]: its name, id and parameters (name, value). *)
Record DuneQuery : Type := mkDuneQuery {
  query_name : string;
  query_id : Z;
  query_params : list (string * string);
}.

(** A result row of the query service: a dict from column to value. *)
Abbreviation Row := (gmap string string).

(** [dune_client.client.DuneClient]: what [refresh(query).get_rows()]
    answers for each query, or the error it raises. *)
Record DuneClient : Type := mkDuneClient {
  refresh : DuneQuery -> result (list Row);
}.

(** [web3.Web3] as the script uses it: the answers of the two ERC20 reads
    [contract(address, ERC20_ABI).caller.symbol()] and [.decimals()] for a
    contract address, or the error each raises. The ABI constant of
    [src/constants.py] is only handed through to the library. *)
Record Web3 : Type := mkWeb3 {
  eth_symbol : string -> result string;
  eth_decimals : string -> result Z;
}.

(** Pure functions of the libraries and of [src/utils.py] that the script
    calls and whose code is not part of it. *)
Class Externals : Type := {
  (** [Web3.toChecksumAddress]: the check-summed form, or an error on a
      string that is no address. *)
  toChecksumAddress : string -> result string;
  (** [Address(s)] of duneapi: validates and check-sums, or raises. *)
  Address_new : string -> result Address;
  (** [query.url()] of dune_client. *)
  DuneQuery_url : DuneQuery -> string;
  (** Modelled from the spec: [Network.as_dune_v2_repr] of [src/utils.py],
      the network-name parameter of the v2 query. *)
  as_dune_v2_repr : Network -> string;
  (** The order in which iterating a Python [set] yields its members. *)
  set_iter : gset Address -> list Address;
}.

(** ** Effects *)

(** What a run does to the outside, in order. *)
Inductive event : Type :=
| Print (line : string)
| DuneRefresh (query : DuneQuery)
| Resolve (token : Address)
| EthCall (contract : string) (method : string).

(** The state a run acts on: the directories and files of the file system
    (path to content) and the trace of events so far. Failures of the file
    system itself are not modelled. *)
Record World : Type := mkWorld {
  dirs : gset string;
  files : gmap string string;
  trace : list event;
}.

Definition emit_event (e : event) (w : World) : World :=
  mkWorld (dirs w) (files w) (trace w ++ [e]).

(** Computations of the script: they read and change the world and either
    return or raise; the effects made before a raise stay. *)
Definition M (A : Type) : Type := World -> result A * World.

Definition ret {A} (a : A) : M A := fun w => (Ok a, w).

Definition bind {A B} (m : M A) (k : A -> M B) : M B :=
  fun w => match m w with
           | (Ok a, w') => k a w'
           | (Raise e, w') => (Raise e, w')
           end.

Notation "'let*' x ':=' m 'in' k" := (bind m (fun x => k))
  (at level 10, x pattern, m at level 100, k at level 200).
Notation "m ';;' k" := (bind m (fun _ => k))
  (at level 100, k at level 200, right associativity).

(** A pure expression that may raise. *)
Definition lift {A} (r : result A) : M A := fun w => (r, w).

(** [try: body  except Exception: handler]. *)
Definition try_except {A} (body : M A) (handler : exn -> M A) : M A :=
  fun w => match body w with
           | (Ok a, w') => (Ok a, w')
           | (Raise e, w') => handler e w'
           end.

Definition emit (e : event) : M unit := fun w => (Ok tt, emit_event e w).

(** [print(line)]. *)
Definition print (line : string) : M unit := emit (Print line).

(** [[f(x) for x in xs]] where [f] may raise: the first raise ends it. *)
Fixpoint for_each {A B} (f : A -> result B) (xs : list A) : result (list B) :=
  match xs with
  | [] => Ok []
  | x :: xs' =>
      result_bind (f x) (fun y =>
      result_bind (for_each f xs') (fun ys =>
      Ok (y :: ys)))
  end.

(** [[f(x) for x in xs if cond(x)]]. *)
Fixpoint for_each_if {A B} (f : A -> result B) (cond : A -> bool) (xs : list A)
  : result (list B) :=
  match xs with
  | [] => Ok []
  | x :: xs' =>
      if cond x then
        result_bind (f x) (fun y =>
        result_bind (for_each_if f cond xs') (fun ys =>
        Ok (y :: ys)))
      else for_each_if f cond xs'
  end.

(** [d[k]] on a dict: the value, or [KeyError]. *)
Definition getitem `{Countable K} {V} (d : gmap K V) (k : K) (repr : string) : result V :=
  match d !! k with
  | Some v => Ok v
  | None => Raise (KeyError repr)
  end.

(** ** The script *)

Section Script.
Context {ext : Externals}.

(** The address that stands for the chain's native asset. *)
Definition NATIVE_ASSET : string := "0xEeeeeEeeeEeEeeEeEeEeeEEEeeeeEeeeeeeeEEeE".

(** [token_contract.caller.symbol()]: one read against the node. *)
Definition call_symbol (w3 : Web3) (contract : string) : M string :=
  emit (EthCall contract "symbol");;
  lift (eth_symbol w3 contract).

(** [token_contract.caller.decimals()]: one read against the node. *)
Definition call_decimals (w3 : Web3) (contract : string) : M Z :=
  emit (EthCall contract "decimals");;
  lift (eth_decimals w3 contract).

(** [TokenDetails.__init__]. The [Resolve] event marks that the
    constructor was entered for [token]. *)
Definition TokenDetails_init (token : Address) (w3 : Web3) : M TokenDetails :=
  emit (Resolve token);;
  let* self_address := lift (toChecksumAddress (Address_address token)) in
  let* native := lift (toChecksumAddress NATIVE_ASSET) in
  if String.eqb self_address native then
    ret (mkTokenDetails self_address "ETH" 18)
  else
    let* symbol := call_symbol w3 self_address in
    let* decimals := call_decimals w3 self_address in
    ret (mkTokenDetails self_address symbol decimals).

(** [dune.refresh(query)] followed by [get_rows()]. *)
Definition dune_refresh (dune : DuneClient) (query : DuneQuery) : M (list Row) :=
  emit (DuneRefresh query);;
  lift (refresh dune query).

(** [Address(row["token"])]. *)
Definition row_token (row : Row) : result Address :=
  result_bind (getitem row "token" "token") Address_new.

(** [{Network.MAINNET: 1317323, Network.GNOSIS: 1403053}[network]]. *)
Definition legacy_query_id (network : Network) : result Z :=
  match network with
  | MAINNET => Ok 1317323%Z
  | GNOSIS => Ok 1403053%Z
  | OTHER _ => Raise (KeyError (Network_str network))
  end.

(** [fetch_missing_tokens_legacy]: the V1 engine's source. *)
Definition fetch_missing_tokens_legacy (dune : DuneClient) (network : Network)
  : M (list Address) :=
  let* id := lift (legacy_query_id network) in
  let query := mkDuneQuery "V1: Missing Tokens" id [] in
  print ("Fetching V1 missing tokens for " +:+ Network_str network
           +:+ " from " +:+ DuneQuery_url query);;
  let* v1_missing := dune_refresh dune query in
  lift (for_each row_token v1_missing).

(** The query [fetch_missing_tokens] builds. *)
Definition v2_query (network : Network) : DuneQuery :=
  mkDuneQuery "V2: Missing Tokens" 1842715 [("Blockchain", as_dune_v2_repr network)].

(** [fetch_missing_tokens]: the V2 engine's source. *)
Definition fetch_missing_tokens (dune : DuneClient) (network : Network)
  : M (list Address) :=
  let query := v2_query network in
  print ("Fetching V2 missing tokens for " +:+ Network_str network
           +:+ " from " +:+ DuneQuery_url query);;
  let* v2_missing := dune_refresh dune query in
  lift (for_each row_token v2_missing).

(** [os.path.join(path, filename)] on POSIX. *)
Definition path_join (path filename : string) : string :=
  if String.prefix "/" filename then filename
  else if String.eqb path "" then filename
  else if String.eqb (slice_from (String.length path - 1) path) "/" then path +:+ filename
  else path +:+ "/" +:+ filename.

(** What the loop of [file.write(f"{row}\n")] leaves in the file. *)
Definition file_content (results : list string) : string :=
  String.concat "" (map (fun row => row +:+ NL) results).

(** [write_results]: the directory is made when absent, the file is
    replaced. *)
Definition write_results (results : list string) (path filename : string) : M unit :=
  (fun w =>
     let made := if bool_decide (path ∈ dirs w) then dirs w else {[path]} ∪ dirs w in
     (Ok tt, mkWorld made (<[path_join path filename := file_content results]> (files w))
                     (trace w)));;
  print ("Results written to " +:+ filename).

(** The resolution loop of [run_missing_tokens] over the tokens in the
    order the set yields them. [tqdm] only draws a progress bar. *)
Fixpoint resolve_tokens (w3 : Web3) (tokens : list Address)
    (token_details : gmap Address TokenDetails) (skipped : list Address)
  : M (gmap Address TokenDetails * list Address) :=
  match tokens with
  | [] => ret (token_details, skipped)
  | token :: rest =>
      let* (token_details', skipped') :=
        try_except
          (let* details := TokenDetails_init token w3 in
           ret (<[token := details]> token_details, skipped))
          (fun _ =>
             print ("Something wrong with token " +:+ Address_str token +:+ " - skipping.");;
             ret (token_details, skipped ++ [token])) in
      resolve_tokens w3 rest token_details' skipped'
  end.

(** [t not in skipped]. *)
Definition not_in (skipped : list Address) (t : Address) : bool :=
  bool_decide (t ∉ skipped).

(** [[token_details[t].as_v1_string(chain) for t in v1 if t not in skipped]]. *)
Definition res_v1_of (chain : Network) (token_details : gmap Address TokenDetails)
    (skipped v1 : list Address) : result (list string) :=
  for_each_if
    (fun t => result_bind (getitem token_details t (Address_str t))
                          (fun details => as_v1_string details chain))
    (not_in skipped) v1.

(** [[token_details[t].as_v2_string() for t in v2 if t not in skipped]]. *)
Definition res_v2_of (token_details : gmap Address TokenDetails)
    (skipped v2 : list Address) : result (list string) :=
  for_each_if
    (fun t => result_bind (getitem token_details t (Address_str t))
                          (fun details => Ok (as_v2_string details)))
    (not_in skipped) v2.

(** [len(l)] printed. *)
Definition str_of_len {A} (l : list A) : string := str_of_int (Z.of_nat (length l)).

(** The body of [run_missing_tokens] once [w3] and [missing_tokens] are
    bound. *)
Definition process_missing_tokens (chain : Network) (w3 : Web3)
    (missing_tokens : MissingTokenResults) : M unit :=
  if negb (is_empty missing_tokens) then
    print ("Found " +:+ str_of_len (v1 missing_tokens) +:+ " missing tokens on V1 "
             +:+ "and " +:+ str_of_len (v2 missing_tokens)
             +:+ " on V2. Fetching token details..." +:+ NL);;
    let* (token_details, skipped) :=
      resolve_tokens w3 (set_iter (get_all_tokens missing_tokens)) ∅ [] in
    print ("Processing results..." +:+ NL);;
    let* res_v1 := lift (res_v1_of chain token_details skipped (v1 missing_tokens)) in
    let* res_v2 := lift (res_v2_of token_details skipped (v2 missing_tokens)) in
    write_results res_v1 "./out" "missing-tokens-v1.txt";;
    write_results res_v2 "./out" "missing-tokens-v2.txt"
  else
    print ("No missing tokens detected on " +:+ Network_str chain +:+ ". Have a good day!").

(** The [missing_tokens] a run builds: the V1 list is the empty list, the
    V2 list is fetched. *)
Definition fetch_missing_token_results (dune : DuneClient) (chain : Network)
  : M MissingTokenResults :=
  let* v2 := fetch_missing_tokens dune chain in
  ret (mkMissingTokenResults [] v2).

(** [run_missing_tokens]. The node client [w3] and the query client [dune]
    are the ones the script builds from the keys of its environment. *)
Definition run_missing_tokens (chain : Network) (w3 : Web3) (dune : DuneClient) : M unit :=
  let* missing_tokens := fetch_missing_token_results dune chain in
  process_missing_tokens chain w3 missing_tokens.

End Script.

(** ** The entry point and its environment *)

(** The constructors of the two clients, which the entry point calls with
    what it reads from the environment. Building a client sends nothing. *)
Class Connectors : Type := {
  (** Modelled from the spec: [Network.node_url] of [src/utils.py], the
      address of the node for a network and a node-access key. *)
  node_url : Network -> string -> string;
  (** [Web3(Web3.HTTPProvider(url))]. *)
  Web3_connect : string -> Web3;
  (** [DuneClient(api_key)]. *)
  DuneClient_new : string -> DuneClient;
}.

Section EntryPoint.
Context {ext : Externals} {conn : Connectors}.

(** [os.environ[key]]. *)
Definition environ_get (environ : gmap string string) (key : string) : result string :=
  getitem environ key key.

(** [run_missing_tokens(chain)] from its first line: the node key is read
    and the node client built, then the query key is read and the query
    client built, then the sources are fetched and the batch is worked on. *)
Definition run_missing_tokens_environ (environ : gmap string string) (chain : Network)
  : M unit :=
  let* infura_key := lift (environ_get environ "INFURA_KEY") in
  let w3 := Web3_connect (node_url chain infura_key) in
  let* dune_api_key := lift (environ_get environ "DUNE_API_KEY") in
  run_missing_tokens chain w3 (DuneClient_new dune_api_key).

(** [for x in xs: body(x)]. *)
Fixpoint for_in {A} (xs : list A) (body : A -> M unit) : M unit :=
  match xs with
  | [] => ret tt
  | x :: xs' => body x;; for_in xs' body
  end.

(** The [__main__] block, with [environ] the environment once
    [load_dotenv()] has filled it. *)
Definition main (environ : gmap string string) : M unit :=
  for_in [MAINNET] (fun blockchain =>
    print ("Execute on Network " +:+ Network_str blockchain);;
    run_missing_tokens_environ environ blockchain).

End EntryPoint.

(** * Vocabulary of the properties *)

(** The world before a run: nothing on disk, nothing done. *)
Definition empty_world : World := mkWorld ∅ ∅ [].

(** ** Observations on a trace *)

(** The tokens for which [TokenDetails] was constructed, in order. *)
Definition resolver_calls (tr : list event) : list Address :=
  omap (fun e => match e with Resolve t => Some t | _ => None end) tr.

(** The contract reads made against the node, in order. *)
Definition eth_calls (tr : list event) : list (string * string) :=
  omap (fun e => match e with EthCall c m => Some (c, m) | _ => None end) tr.

(** The queries sent to the query service, in order. *)
Definition dune_queries (tr : list event) : list DuneQuery :=
  omap (fun e => match e with DuneRefresh q => Some q | _ => None end) tr.

(** ** Messages *)

(** The messages a run prints around the loop. *)
Definition found_message (batch : MissingTokenResults) : string :=
  "Found " +:+ str_of_len (v1 batch) +:+ " missing tokens on V1 "
    +:+ "and " +:+ str_of_len (v2 batch) +:+ " on V2. Fetching token details..." +:+ NL.

Definition none_message (chain : Network) : string :=
  "No missing tokens detected on " +:+ Network_str chain +:+ ". Have a good day!".

(** ** What the resolver and the loop do, as functions of the tokens *)

Section Vocabulary.
Context {ext : Externals}.

(** What constructing [TokenDetails] for [token] yields: the record, or
    the error raised. *)
Definition resolution (w3 : Web3) (token : Address) : result TokenDetails :=
  fst (TokenDetails_init token w3 empty_world).

(** The record of a token whose resolution succeeds. *)
Definition resolved (w3 : Web3) (token : Address) : option TokenDetails :=
  to_option (resolution w3 token).

(** The events constructing [TokenDetails] for [token] adds to the trace. *)
Definition resolution_events (w3 : Web3) (token : Address) : list event :=
  trace (snd (TokenDetails_init token w3 empty_world)).

(** The dict after the loop: every token that resolves is bound to its
    record. *)
Definition details_after (w3 : Web3) (tokens : list Address)
    (token_details : gmap Address TokenDetails) : gmap Address TokenDetails :=
  foldl (fun m t => match resolution w3 t with
                    | Ok details => <[t := details]> m
                    | Raise _ => m
                    end) token_details tokens.

(** The tokens the loop appends to the skip list: those that fail. *)
Definition skipped_of (w3 : Web3) (tokens : list Address) : list Address :=
  filter (fun t => resolved w3 t = None) tokens.

(** The diagnostic the loop prints for a token it skips. *)
Definition skip_message (token : Address) : string :=
  "Something wrong with token " +:+ Address_str token +:+ " - skipping.".

(** The events of the loop. *)
Definition loop_events (w3 : Web3) (tokens : list Address) : list event :=
  flat_map (fun t => resolution_events w3 t
                     ++ match resolution w3 t with
                        | Ok _ => []
                        | Raise _ => [Print (skip_message t)]
                        end) tokens.

(** The world when the loop is done and the projection starts. *)
Definition world_after_loop (w3 : Web3) (batch : MissingTokenResults) (w : World) : World :=
  mkWorld (dirs w) (files w)
    (trace w ++ Print (found_message batch)
       :: loop_events w3 (set_iter (get_all_tokens batch))
       ++ [Print ("Processing results..." +:+ NL)]).

End Vocabulary.

(** A character is an upper-case ASCII letter. *)
Definition is_upper (c : ascii) : bool :=
  let n := nat_of_ascii c in (65 <=? n)%nat && (n <=? 90)%nat.

(** ** Reading a written file back *)





(** ** Concrete inputs *)

(** A plain instance of the library functions, used to run the script on
    concrete inputs: every string is its own check-summed form, every
    string is a valid address, and a set is iterated in the order of
    [elements]. *)
Definition plain_externals : Externals := {|
  toChecksumAddress := fun s => Ok s;
  Address_new := fun s => Ok (mkAddress s);
  DuneQuery_url := fun q => "https://dune.com/queries/" +:+ str_of_int (query_id q);
  as_dune_v2_repr := fun n =>
    match n with MAINNET => "ethereum" | GNOSIS => "gnosis" | OTHER s => s end;
  set_iter := elements;
|}.

(** A node on which every contract read fails. *)
Definition failing_web3 : Web3 :=
  mkWeb3 (fun _ => Raise (OtherError "execution reverted"))
         (fun _ => Raise (OtherError "execution reverted")).

(** Three token addresses and a node on which the second has no [symbol]
    and the third no [decimals]. *)
Definition BLUE : Address := mkAddress "0x96B00208911d72eA9f10c3303fF319427A7884C9".
Definition BAND : Address := mkAddress "0xE154A435408211aC89757b76C4fBE4DC9ED2ef27".
Definition YCRV : Address := mkAddress "0xFCc5C47bE19d06BF83eB04298b026F81069ff65b".

Definition sample_web3 : Web3 :=
  mkWeb3
    (fun c => if String.eqb c (Address_address BAND)
              then Raise (OtherError "execution reverted") else Ok "BLUE")
    (fun c => if String.eqb c (Address_address YCRV)
              then Raise (OtherError "execution reverted") else Ok 18%Z).

(** A batch whose lists overlap and repeat an address. *)
Definition sample_batch : MissingTokenResults :=
  mkMissingTokenResults [BLUE; BAND; BLUE] [YCRV; mkAddress NATIVE_ASSET; BLUE].

(** A query service on which every query, the legacy V1 query included,
    answers one row. *)
Definition sample_dune : DuneClient :=
  mkDuneClient (fun _ => Ok [ {["token" := Address_address BLUE]} ]).

(** Clients for the concrete runs: whatever the keys, the sample node and
    the sample query service. *)
Definition plain_connectors : Connectors := {|
  node_url := fun chain key => "https://" +:+ Network_str chain +:+ ".infura.io/v3/" +:+ key;
  Web3_connect := fun _ => sample_web3;
  DuneClient_new := fun _ => sample_dune;
|}.

(** A query service that is down. *)
Definition failing_dune : DuneClient :=
  mkDuneClient (fun _ => Raise (OtherError "query service unreachable")).

(** A query service whose second row has no [token] column. *)
Definition malformed_dune : DuneClient :=
  mkDuneClient (fun _ => Ok [ {["token" := Address_address BLUE]};
                              {["symbol" := "BAND"]};
                              {["token" := Address_address YCRV]} ]).

(** * Properties *)

(** ** The formatter *)

Lemma ascii_lower_not_upper c : is_upper (ascii_lower c) = false.
Proof.
  unfold ascii_lower, is_upper.
  destruct ((65 <=? nat_of_ascii c)%nat && (nat_of_ascii c <=? 90)%nat) eqn:E.
  - apply andb_true_iff in E as [E1 E2].
    apply Nat.leb_le in E1, E2.
    rewrite nat_ascii_embedding by lia.
    apply andb_false_iff. right. apply Nat.leb_gt. lia.
  - exact E.
Qed.

Lemma lower_no_upper s : forallb (fun c => negb (is_upper c)) (list_ascii_of_string (lower s)) = true.
Proof.
  induction s as [|c s IH]; simpl; [reflexivity|].
  rewrite ascii_lower_not_upper. exact IH.
Qed.

Lemma lower_length s : String.length (lower s) = String.length s.
Proof. induction s as [|c s IH]; simpl; congruence. Qed.

(** C5, as amended: on mainnet [as_v1_string] returns two backslash
    characters and [x], then the address without its [0x] prefix, a tab,
    the symbol, a tab and the decimals; on gnosis it returns
    [('<symbol>', <decimals>, decode('<address without 0x>', 'hex')),]. *)
Theorem as_v1_string_format (hex sym : string) (dec : Z) :
  let record := mkTokenDetails ("0x" +:+ hex) sym dec in
  as_v1_string record MAINNET
  = Ok (String "\" (String "\" (String "x" (hex +:+ TAB +:+ sym +:+ TAB +:+ str_of_int dec))))
  ∧ as_v1_string record GNOSIS
    = Ok ("('" +:+ sym +:+ "', " +:+ str_of_int dec +:+ ", decode('" +:+ hex +:+ "', 'hex')),").
Proof. split; reflexivity. Qed.

(** C5 as stated fails: the mainnet row of a record does not start with a
    single backslash followed by [x] and the address. *)
Lemma as_v1_string_single_backslash_fails :
  as_v1_string (mkTokenDetails "0x96B00208911d72eA9f10c3303fF319427A7884C9" "BLUE" 18) MAINNET
  ≠ Ok (String "\" (String "x"
          ("96B00208911d72eA9f10c3303fF319427A7884C9" +:+ TAB +:+ "BLUE" +:+ TAB +:+ "18"))).
Proof. vm_compute. discriminate. Qed.

(** C6: [as_v2_string] returns [('<lower-cased address>', '<symbol>',
    <decimals>),] whatever the network (it takes none), the lower-cased
    address holding no upper-case letter; and the record of the spec's
    example renders as the spec says. *)
Theorem as_v2_string_format :
  (∀ addr sym dec,
     as_v2_string (mkTokenDetails addr sym dec)
     = "('" +:+ lower addr +:+ "', '" +:+ sym +:+ "', " +:+ str_of_int dec +:+ "),"
     ∧ String.length (lower addr) = String.length addr
     ∧ forallb (fun c => negb (is_upper c)) (list_ascii_of_string (lower addr)) = true)
  ∧ as_v2_string (mkTokenDetails "0xFCc5c47bE19d06bF83eB04298b026F81069FF65" "yCRV" 18)
    = "('0xfcc5c47be19d06bf83eb04298b026f81069ff65', 'yCRV', 18),".
Proof.
  split; [|reflexivity].
  intros addr sym dec. split; [reflexivity|].
  split; [apply lower_length | apply lower_no_upper].
Qed.

(** C7: [as_v1_string] is a function of the record and the network alone;
    it returns a string on a supported network, and on any other it raises
    the "Incompatible Network" [ValueError] and yields no row. *)
Theorem as_v1_string_fails_iff_unsupported (record : TokenDetails) (chain : Network) :
  match as_v1_string record chain with
  | Ok _ => supported chain = true
  | Raise e =>
      supported chain = false
      ∧ e = ValueError ("Incompatible Network " +:+ Network_str chain)
  end.
Proof. destruct chain; simpl; auto. Qed.

(** ** The work set *)

Section WorkSet.
Implicit Types (l : list Address) (t : Address).

Lemma list_to_set_cons_elem t l :
  t ∈ l → {[t]} ∪ list_to_set l = list_to_set (C:=gset Address) l.
Proof.
  intros Hin. apply set_eq. intros x.
  rewrite elem_of_union, elem_of_singleton, elem_of_list_to_set.
  split; [intros [->|Hx]; done | by right].
Qed.

Lemma size_list_to_set_le l : size (list_to_set (C:=gset Address) l) ≤ length l.
Proof.
  induction l as [|t l IH].
  - rewrite list_to_set_nil, size_empty. simpl. lia.
  - rewrite list_to_set_cons. simpl length.
    destruct (decide (t ∈ l)) as [Hin|Hnin].
    + rewrite list_to_set_cons_elem by done. lia.
    + rewrite size_union, size_singleton; [lia|].
      apply disjoint_singleton_l. by rewrite elem_of_list_to_set.
Qed.

Lemma size_list_to_set_eq_NoDup l :
  size (list_to_set (C:=gset Address) l) = length l ↔ NoDup l.
Proof.
  split; [|apply size_list_to_set].
  induction l as [|t l IH]; intros Hsize; [constructor|].
  rewrite list_to_set_cons in Hsize. simpl length in Hsize.
  pose proof (size_list_to_set_le l) as Hle.
  destruct (decide (t ∈ l)) as [Hin|Hnin].
  - exfalso. rewrite list_to_set_cons_elem in Hsize by done. lia.
  - rewrite size_union, size_singleton in Hsize
      by (apply disjoint_singleton_l; by rewrite elem_of_list_to_set).
    constructor; [done|]. apply IH. lia.
Qed.

End WorkSet.

(** C4, as amended: the work set never has more members than the two lists
    have entries; it has exactly as many when, and only when, the lists
    share no address and neither repeats one; and for two identical lists
    it has as many members as one list has entries exactly when that list
    repeats no address. *)
Theorem get_all_tokens_size (l1 l2 : list Address) :
  size (get_all_tokens (mkMissingTokenResults l1 l2)) ≤ length l1 + length l2
  ∧ (size (get_all_tokens (mkMissingTokenResults l1 l2)) = length l1 + length l2
     ↔ NoDup l1 ∧ NoDup l2 ∧ ∀ t, t ∈ l1 → t ∉ l2)
  ∧ (size (get_all_tokens (mkMissingTokenResults l1 l1)) = length l1 ↔ NoDup l1).
Proof.
  unfold get_all_tokens; simpl. split; [|split].
  - rewrite <- length_app. apply size_list_to_set_le.
  - rewrite <- length_app, size_list_to_set_eq_NoDup, NoDup_app. tauto.
  - rewrite <- size_list_to_set_eq_NoDup.
    replace (list_to_set (C:=gset Address) (l1 ++ l1)) with (list_to_set (C:=gset Address) l1);
      [done|].
    apply set_eq. intros x. rewrite !elem_of_list_to_set, elem_of_app. tauto.
Qed.

(** C4 as stated fails: two lists that share no address can still give a
    smaller work set, and a list paired with itself can give a work set
    smaller than the list, because an address may repeat inside a list. *)
Lemma get_all_tokens_size_repeated_address :
  let a := mkAddress "0x96B00208911d72eA9f10c3303fF319427A7884C9" in
  (∀ t, t ∈ [a; a] → t ∉ @nil Address)
  ∧ size (get_all_tokens (mkMissingTokenResults [a; a] [])) ≠ length [a; a] + length (@nil Address)
  ∧ size (get_all_tokens (mkMissingTokenResults [a; a] [a; a])) ≠ length [a; a].
Proof.
  split; [|split].
  - intros t _ Hin. by apply elem_of_nil in Hin.
  - vm_compute. lia.
  - vm_compute. lia.
Qed.

(** ** Observations on a trace *)

Lemma resolver_calls_app tr1 tr2 :
  resolver_calls (tr1 ++ tr2) = resolver_calls tr1 ++ resolver_calls tr2.
Proof. apply omap_app. Qed.

Lemma eth_calls_app tr1 tr2 : eth_calls (tr1 ++ tr2) = eth_calls tr1 ++ eth_calls tr2.
Proof. apply omap_app. Qed.

Lemma dune_queries_app tr1 tr2 :
  dune_queries (tr1 ++ tr2) = dune_queries tr1 ++ dune_queries tr2.
Proof. apply omap_app. Qed.

(** ** Resolution of one token *)

Section Resolution.
Context {ext : Externals}.

(** The constructor's outcome does not depend on the world it runs in, and
    it only appends its events to the trace. *)
Lemma TokenDetails_init_run token w3 w :
  TokenDetails_init token w3 w
  = (resolution w3 token,
     mkWorld (dirs w) (files w) (trace w ++ resolution_events w3 token)).
Proof.
  unfold resolution, resolution_events, TokenDetails_init, call_symbol, call_decimals.
  unfold bind, emit, lift, ret, emit_event, empty_world. simpl.
  destruct (toChecksumAddress (Address_address token)) as [c|e]; simpl; [|done].
  destruct (toChecksumAddress NATIVE_ASSET) as [n|e]; simpl; [|done].
  destruct (String.eqb c n); simpl; [done|].
  destruct (eth_symbol w3 c) as [sym|e]; simpl; [|by rewrite <- !app_assoc].
  destruct (eth_decimals w3 c) as [dec|e]; simpl; by rewrite <- !app_assoc.
Qed.

(** Each construction is one resolver call. *)
Lemma resolver_calls_resolution_events w3 token :
  resolver_calls (resolution_events w3 token) = [token].
Proof.
  unfold resolution_events, TokenDetails_init, call_symbol, call_decimals.
  unfold bind, emit, lift, ret, emit_event, empty_world. simpl.
  destruct (toChecksumAddress (Address_address token)) as [c|e]; simpl; [|done].
  destruct (toChecksumAddress NATIVE_ASSET) as [n|e]; simpl; [|done].
  destruct (String.eqb c n); simpl; [done|].
  destruct (eth_symbol w3 c) as [sym|e]; simpl; [|done].
  destruct (eth_decimals w3 c) as [dec|e]; simpl; done.
Qed.

(** A construction sends nothing to the query service. *)
Lemma dune_queries_resolution_events w3 token :
  dune_queries (resolution_events w3 token) = [].
Proof.
  unfold resolution_events, TokenDetails_init, call_symbol, call_decimals.
  unfold bind, emit, lift, ret, emit_event, empty_world. simpl.
  destruct (toChecksumAddress (Address_address token)) as [c|e]; simpl; [|done].
  destruct (toChecksumAddress NATIVE_ASSET) as [n|e]; simpl; [|done].
  destruct (String.eqb c n); simpl; [done|].
  destruct (eth_symbol w3 c) as [sym|e]; simpl; [|done].
  destruct (eth_decimals w3 c) as [dec|e]; simpl; done.
Qed.

(** C8: for a token whose check-summed address is that of the native
    asset, the constructor returns the record with symbol [ETH] and
    decimals 18 whatever the node would answer, and adds no contract read
    to the trace: the only event is the marker of the construction. *)
Theorem native_asset_without_contract_call (token : Address) (w3 : Web3) (w : World) (c : string) :
  toChecksumAddress (Address_address token) = Ok c →
  toChecksumAddress NATIVE_ASSET = Ok c →
  TokenDetails_init token w3 w
  = (Ok (mkTokenDetails c "ETH" 18), emit_event (Resolve token) w)
  ∧ eth_calls (trace (snd (TokenDetails_init token w3 w))) = eth_calls (trace w).
Proof.
  intros Htoken Hnative.
  assert (TokenDetails_init token w3 w
          = (Ok (mkTokenDetails c "ETH" 18), emit_event (Resolve token) w)) as Hrun.
  { unfold TokenDetails_init, bind, emit, lift, ret. simpl.
    rewrite Htoken, Hnative. simpl. by rewrite String.eqb_refl. }
  split; [exact Hrun|].
  rewrite Hrun. simpl. rewrite eth_calls_app. simpl. apply app_nil_r.
Qed.

End Resolution.

(** C8 on the native asset's own address, with a node that answers nothing. *)
Lemma native_asset_without_contract_call_witness :
  @TokenDetails_init plain_externals (mkAddress NATIVE_ASSET) failing_web3 empty_world
  = (Ok (mkTokenDetails NATIVE_ASSET "ETH" 18),
     emit_event (Resolve (mkAddress NATIVE_ASSET)) empty_world)
  ∧ eth_calls (trace (snd (@TokenDetails_init plain_externals (mkAddress NATIVE_ASSET)
                             failing_web3 empty_world)))
    = eth_calls (trace empty_world).
Proof.
  apply (@native_asset_without_contract_call plain_externals
           (mkAddress NATIVE_ASSET) failing_web3 empty_world NATIVE_ASSET);
    reflexivity.
Defined.

(** ** The resolution loop *)

Section Loop.
Context {ext : Externals} (w3 : Web3).
Implicit Types (t token : Address) (tokens skipped : list Address).
Implicit Types (token_details : gmap Address TokenDetails) (w : World).

(** The loop never raises: whatever the resolver does for a token, the
    loop goes on to the next one. *)
Lemma resolve_tokens_run tokens token_details skipped w :
  resolve_tokens w3 tokens token_details skipped w
  = (Ok (details_after w3 tokens token_details, skipped ++ skipped_of w3 tokens),
     mkWorld (dirs w) (files w) (trace w ++ loop_events w3 tokens)).
Proof.
  revert token_details skipped w.
  induction tokens as [|t tokens IH]; intros token_details skipped w.
  - simpl. unfold ret. rewrite !app_nil_r. by destruct w.
  - cbn [resolve_tokens]. unfold bind at 1. unfold try_except.
    unfold bind at 1. rewrite TokenDetails_init_run.
    unfold skipped_of, resolved. cbn [details_after foldl loop_events flat_map].
    rewrite filter_cons.
    destruct (resolution w3 t) as [details|e] eqn:Hres; cbn [to_option].
    + unfold ret. rewrite IH. cbn [dirs files trace].
      rewrite decide_False by done. rewrite app_nil_r, <- app_assoc. done.
    + unfold bind, print, emit, ret, emit_event. cbn [dirs files trace].
      rewrite IH. cbn [dirs files trace].
      rewrite decide_True by done. rewrite <- !app_assoc. done.
Qed.

Lemma resolver_calls_loop_events tokens :
  resolver_calls (loop_events w3 tokens) = tokens.
Proof.
  induction tokens as [|t tokens IH]; [done|].
  cbn [loop_events flat_map]. rewrite !resolver_calls_app, resolver_calls_resolution_events.
  fold (loop_events w3 tokens). rewrite IH.
  by destruct (resolution w3 t).
Qed.

Lemma dune_queries_loop_events tokens :
  dune_queries (loop_events w3 tokens) = [].
Proof.
  induction tokens as [|t tokens IH]; [done|].
  cbn [loop_events flat_map]. rewrite !dune_queries_app, dune_queries_resolution_events.
  fold (loop_events w3 tokens). rewrite IH.
  by destruct (resolution w3 t).
Qed.

Lemma elem_of_skipped_of tokens t :
  t ∈ skipped_of w3 tokens ↔ t ∈ tokens ∧ resolved w3 t = None.
Proof. unfold skipped_of. rewrite list_elem_of_filter. tauto. Qed.

Lemma details_after_cons t tokens token_details :
  details_after w3 (t :: tokens) token_details
  = details_after w3 tokens (match resolution w3 t with
                          | Ok details => <[t := details]> token_details
                          | Raise _ => token_details
                          end).
Proof. reflexivity. Qed.

(** A token of the loop is bound to its record when it resolves; any other
    key keeps what the dict held before. *)
Lemma lookup_details_after tokens token_details t :
  details_after w3 tokens token_details !! t
  = if decide (t ∈ tokens) then
      match resolved w3 t with Some d => Some d | None => token_details !! t end
    else token_details !! t.
Proof.
  revert token_details.
  induction tokens as [|t' tokens IH]; intros token_details.
  - by rewrite decide_False by apply not_elem_of_nil.
  - rewrite details_after_cons, IH. unfold resolved.
    destruct (decide (t ∈ tokens)) as [Hin|Hnin].
    + rewrite decide_True by (by right).
      destruct (resolution w3 t) as [d|e] eqn:Ht; cbn [to_option]; [done|].
      destruct (resolution w3 t') as [d'|e'] eqn:Ht'; [|done].
      destruct (decide (t' = t)) as [->|Hne]; [congruence|].
      by rewrite lookup_insert_ne.
    + destruct (decide (t' = t)) as [->|Hne].
      * rewrite decide_True by (by left).
        destruct (resolution w3 t) as [d|e]; cbn [to_option]; [|done].
        by rewrite lookup_insert_eq.
      * rewrite decide_False by (intros [?|?]%elem_of_cons; congruence).
        destruct (resolution w3 t') as [d'|e']; [|done].
        by rewrite lookup_insert_ne.
Qed.

(** X2: every token the loop adds to the skip list is reported: the loop
    has printed the diagnostic that names it. *)
Theorem skipped_tokens_are_reported tokens token_details skipped w :
  ∃ token_details' skipped' w1,
    resolve_tokens w3 tokens token_details skipped w = (Ok (token_details', skipped'), w1)
    ∧ ∀ t, t ∈ skipped' → t ∈ skipped ∨ Print (skip_message t) ∈ trace w1.
Proof.
  eexists _, _, _. split; [apply resolve_tokens_run|].
  intros t [Hold|Hnew]%elem_of_app; [by left|right].
  apply elem_of_skipped_of in Hnew as [Hin Hres].
  cbn [trace]. apply elem_of_app. right.
  induction tokens as [|t' tokens' IH]; [by apply elem_of_nil in Hin|].
  cbn [loop_events flat_map]. fold (loop_events w3 tokens').
  apply elem_of_cons in Hin as [->|Hin].
  - apply elem_of_app. left. apply elem_of_app. right.
    unfold resolved in Hres. destruct (resolution w3 t'); [done|]. by left.
  - apply elem_of_app. right. by apply IH.
Qed.

End Loop.

(** ** The projection back to the source lists *)

Section Projection.
Context {ext : Externals} (w3 : Web3).
Implicit Types (t : Address) (l skipped : list Address).
Implicit Types (token_details : gmap Address TokenDetails).

Lemma for_each_total {A B} (f : A → B) (xs : list A) :
  for_each (fun x => Ok (f x)) xs = Ok (map f xs).
Proof. induction xs as [|x xs IH]; simpl; [done|]. by rewrite IH. Qed.

Lemma for_each_Forall2 {A B} (f : A → result B) (xs : list A) (ys : list B) :
  for_each f xs = Ok ys ↔ Forall2 (fun x y => f x = Ok y) xs ys.
Proof.
  revert ys. induction xs as [|x xs IH]; intros ys; simpl.
  - split; [intros [= <-]; constructor | by intros ->%Forall2_nil_inv_l].
  - split.
    + destruct (f x) as [y|e] eqn:Hx; simpl; [|done].
      destruct (for_each f xs) as [ys'|e] eqn:Hxs; simpl; [|done].
      intros [= <-]. constructor; [done|]. by apply IH.
    + intros (y & ys' & Hy & Hys & ->)%Forall2_cons_inv_l.
      rewrite Hy. simpl. apply IH in Hys. rewrite Hys. done.
Qed.

(** When the dict and the skip list agree with the resolver on every
    address of [l], the comprehension over [l] keeps exactly the addresses
    that resolved, in the order of [l], and applies [g] to their records. *)
Lemma for_each_if_resolved {B} (g : TokenDetails → result B) token_details skipped l :
  (∀ t, t ∈ l → token_details !! t = resolved w3 t
                ∧ (t ∈ skipped ↔ resolved w3 t = None)) →
  for_each_if (fun t => result_bind (getitem token_details t (Address_str t)) g)
              (not_in skipped) l
  = for_each g (omap (resolved w3) l).
Proof.
  induction l as [|t l IH]; intros Hl; [done|].
  destruct (Hl t) as [Hdict [Hskip1 Hskip2]]; [by left|].
  assert (for_each_if (fun t => result_bind (getitem token_details t (Address_str t)) g)
            (not_in skipped) l = for_each g (omap (resolved w3) l)) as IH'.
  { apply IH. intros t' Ht'. apply Hl. by right. }
  cbn [for_each_if]. unfold not_in at 1, getitem at 1. rewrite Hdict.
  change (omap (resolved w3) (t :: l))
    with (match resolved w3 t with
          | Some d => d :: omap (resolved w3) l
          | None => omap (resolved w3) l
          end).
  destruct (resolved w3 t) as [d|] eqn:Hres.
  - rewrite bool_decide_eq_true_2
      by (intros Hin; specialize (Hskip1 Hin); discriminate).
    cbn [for_each result_bind]. by rewrite IH'.
  - rewrite bool_decide_eq_false_2 by (intros Hnin; apply Hnin; by apply Hskip2).
    exact IH'.
Qed.

End Projection.

(** ** A whole run on a batch *)

Lemma is_empty_spec (batch : MissingTokenResults) :
  is_empty batch = true ↔ v1 batch = [] ∧ v2 batch = [].
Proof.
  unfold is_empty. destruct (v1 batch), (v2 batch); simpl; split; try done.
  all: by intros [? ?].
Qed.

Lemma elem_of_get_all_tokens (batch : MissingTokenResults) (t : Address) :
  t ∈ get_all_tokens batch ↔ t ∈ v1 batch ∨ t ∈ v2 batch.
Proof. unfold get_all_tokens. by rewrite elem_of_list_to_set, elem_of_app. Qed.

Lemma as_v1_string_supported (chain : Network) (ds : list TokenDetails) :
  supported chain = true →
  ∃ rows, for_each (fun d => as_v1_string d chain) ds = Ok rows.
Proof.
  intros Hchain. induction ds as [|d ds [rows IH]]; [by exists []|].
  cbn [for_each]. rewrite IH.
  destruct chain; [| |done]; simpl; eauto.
Qed.

Lemma write_results_run (results : list string) (path filename : string) (w : World) :
  write_results results path filename w
  = (Ok tt,
     mkWorld (if bool_decide (path ∈ dirs w) then dirs w else {[path]} ∪ dirs w)
             (<[path_join path filename := file_content results]> (files w))
             (trace w ++ [Print ("Results written to " +:+ filename)])).
Proof. reflexivity. Qed.

Section Run.
Context {ext : Externals} (w3 : Web3).
Implicit Types (t : Address) (batch : MissingTokenResults) (chain : Network) (w : World).

(** Iterating a set yields each member once, in some order. *)
Hypothesis set_iter_elements : ∀ X : gset Address, set_iter X ≡ₚ elements X.

Lemma elem_of_set_iter (X : gset Address) t : t ∈ set_iter X ↔ t ∈ X.
Proof. rewrite set_iter_elements. apply elem_of_elements. Qed.

Lemma NoDup_set_iter (X : gset Address) : NoDup (set_iter X).
Proof. rewrite set_iter_elements. apply NoDup_elements. Qed.

Lemma length_set_iter (X : gset Address) : length (set_iter X) = size X.
Proof. by rewrite set_iter_elements. Qed.

(** After the loop over the work set of [batch], the dict and the skip
    list agree with the resolver on every address of the work set. *)
Lemma loop_agrees batch t :
  t ∈ get_all_tokens batch →
  details_after w3 (set_iter (get_all_tokens batch)) ∅ !! t = resolved w3 t
  ∧ (t ∈ skipped_of w3 (set_iter (get_all_tokens batch)) ↔ resolved w3 t = None).
Proof.
  intros Hin. apply elem_of_set_iter in Hin. split.
  - rewrite lookup_details_after, decide_True by done.
    destruct (resolved w3 t); [done | apply lookup_empty].
  - rewrite elem_of_skipped_of. tauto.
Qed.

Lemma res_v1_of_run chain batch :
  res_v1_of chain (details_after w3 (set_iter (get_all_tokens batch)) ∅)
    (skipped_of w3 (set_iter (get_all_tokens batch))) (v1 batch)
  = for_each (fun d => as_v1_string d chain) (omap (resolved w3) (v1 batch)).
Proof.
  unfold res_v1_of. apply for_each_if_resolved.
  intros t Ht. apply loop_agrees, elem_of_get_all_tokens. by left.
Qed.

Lemma res_v2_of_run batch :
  res_v2_of (details_after w3 (set_iter (get_all_tokens batch)) ∅)
    (skipped_of w3 (set_iter (get_all_tokens batch))) (v2 batch)
  = Ok (map as_v2_string (omap (resolved w3) (v2 batch))).
Proof.
  unfold res_v2_of. rewrite <- for_each_total. apply for_each_if_resolved.
  intros t Ht. apply loop_agrees, elem_of_get_all_tokens. by right.
Qed.

(** A run on a batch that is not empty, step by step: the only place
    where it can raise is the V1 formatter. *)
Lemma process_missing_tokens_run chain batch w :
  is_empty batch = false →
  process_missing_tokens chain w3 batch w
  = match for_each (fun d => as_v1_string d chain) (omap (resolved w3) (v1 batch)) with
    | Raise e => (Raise e, world_after_loop w3 batch w)
    | Ok res_v1 =>
        (write_results res_v1 "./out" "missing-tokens-v1.txt";;
         write_results (map as_v2_string (omap (resolved w3) (v2 batch)))
           "./out" "missing-tokens-v2.txt") (world_after_loop w3 batch w)
    end.
Proof.
  intros Hne. unfold process_missing_tokens. rewrite Hne. cbn [negb].
  unfold bind at 1. unfold print at 1, emit at 1.
  unfold bind at 1. rewrite resolve_tokens_run.
  unfold bind at 1. unfold print at 1, emit at 1.
  unfold bind at 1. unfold lift at 1. rewrite res_v1_of_run.
  unfold emit_event, world_after_loop. cbn [dirs files trace app].
  rewrite <- !app_assoc. cbn [app].
  destruct (for_each _ _) as [res_v1|e]; [|done].
  unfold bind at 1. unfold lift at 1. rewrite res_v2_of_run. done.
Qed.

Lemma process_missing_tokens_empty chain batch w :
  is_empty batch = true →
  process_missing_tokens chain w3 batch w = (Ok tt, emit_event (Print (none_message chain)) w).
Proof. intros He. unfold process_missing_tokens. by rewrite He. Qed.

(** The files of a run that went through both writes. *)
Lemma files_after_writes (res_v1 res_v2 : list string) w :
  let w' := snd ((write_results res_v1 "./out" "missing-tokens-v1.txt";;
                  write_results res_v2 "./out" "missing-tokens-v2.txt") w) in
  fst ((write_results res_v1 "./out" "missing-tokens-v1.txt";;
        write_results res_v2 "./out" "missing-tokens-v2.txt") w) = Ok tt
  ∧ files w' !! "./out/missing-tokens-v1.txt" = Some (file_content res_v1)
  ∧ files w' !! "./out/missing-tokens-v2.txt" = Some (file_content res_v2)
  ∧ trace w' = trace w ++ [Print "Results written to missing-tokens-v1.txt";
                           Print "Results written to missing-tokens-v2.txt"].
Proof.
  unfold bind. rewrite !write_results_run. cbn [fst snd files trace].
  change (path_join "./out" "missing-tokens-v1.txt") with "./out/missing-tokens-v1.txt".
  change (path_join "./out" "missing-tokens-v2.txt") with "./out/missing-tokens-v2.txt".
  split; [done|]. split; [|split].
  - rewrite lookup_insert_ne by done. apply lookup_insert_eq.
  - apply lookup_insert_eq.
  - by rewrite <- app_assoc.
Qed.

(** C1: whatever the resolver does, the loop over the work set returns:
    it ends with the skip list holding exactly the addresses of the batch
    whose resolution raised. On a supported network the run returns too,
    and for a batch that is not empty the two files hold, line by line, the
    rows of the addresses of [v1] and of [v2] that resolved, in the order
    of the source list, each rendered from the record its resolution gave;
    the addresses that failed are absent. *)
Theorem resolver_failures_are_skipped chain batch w :
  supported chain = true →
  ∃ token_details skipped w1 rows1 w',
    resolve_tokens w3 (set_iter (get_all_tokens batch)) ∅ [] w
    = (Ok (token_details, skipped), w1)
    ∧ (∀ t, t ∈ skipped ↔ (t ∈ v1 batch ∨ t ∈ v2 batch) ∧ resolved w3 t = None)
    ∧ process_missing_tokens chain w3 batch w = (Ok tt, w')
    ∧ Forall2 (fun d row => as_v1_string d chain = Ok row)
              (omap (resolved w3) (v1 batch)) rows1
    ∧ (is_empty batch = false →
       files w' !! "./out/missing-tokens-v1.txt" = Some (file_content rows1)
       ∧ files w' !! "./out/missing-tokens-v2.txt"
         = Some (file_content (map as_v2_string (omap (resolved w3) (v2 batch))))).
Proof.
  intros Hchain.
  destruct (as_v1_string_supported chain (omap (resolved w3) (v1 batch)) Hchain)
    as [rows1 Hrows1].
  eexists _, _, _, rows1, (snd (process_missing_tokens chain w3 batch w)).
  split; [apply resolve_tokens_run|].
  split.
  { intros t. cbn [app]. rewrite elem_of_skipped_of, elem_of_set_iter.
    by rewrite elem_of_get_all_tokens. }
  split; [|split; [by apply for_each_Forall2|]].
  - destruct (is_empty batch) eqn:He.
    + by rewrite process_missing_tokens_empty.
    + rewrite process_missing_tokens_run, Hrows1 by done.
      pose proof (files_after_writes rows1
                    (map as_v2_string (omap (resolved w3) (v2 batch)))
                    (world_after_loop w3 batch w)) as [Hok _].
      cbv zeta in Hok. rewrite <- Hok. apply surjective_pairing.
  - intros He. rewrite process_missing_tokens_run, Hrows1 by done.
    pose proof (files_after_writes rows1
                  (map as_v2_string (omap (resolved w3) (v2 batch)))
                  (world_after_loop w3 batch w)) as (_ & H1 & H2 & _).
    by split.
Qed.

(** C2: a run constructs [TokenDetails] once for each member of the work
    set and for nothing else: the resolver calls it adds to the trace hold
    no address twice, all are addresses of the batch, and there are as many
    as the work set has members. *)
Theorem resolver_called_once_per_address chain batch w :
  ∃ calls,
    resolver_calls (trace (snd (process_missing_tokens chain w3 batch w)))
    = resolver_calls (trace w) ++ calls
    ∧ NoDup calls
    ∧ length calls = size (get_all_tokens batch)
    ∧ (∀ t, t ∈ calls ↔ t ∈ v1 batch ∨ t ∈ v2 batch).
Proof.
  destruct (is_empty batch) eqn:He.
  - exists []. rewrite process_missing_tokens_empty by done.
    apply is_empty_spec in He as [He1 He2].
    cbn [snd emit_event trace]. rewrite resolver_calls_app.
    unfold get_all_tokens. rewrite He1, He2.
    split; [done|]. split; [constructor|].
    split; [symmetry; apply (size_empty (C:=gset Address))|].
    intros t. rewrite !elem_of_nil. tauto.
  - exists (set_iter (get_all_tokens batch)).
    split; [|split; [apply NoDup_set_iter|split; [apply length_set_iter|]]].
    + rewrite process_missing_tokens_run by done.
      assert (resolver_calls (trace (world_after_loop w3 batch w))
              = resolver_calls (trace w) ++ set_iter (get_all_tokens batch)) as Hloop.
      { unfold world_after_loop. cbn [trace].
        rewrite resolver_calls_app. f_equal.
        change (Print (found_message batch) :: ?l) with ([Print (found_message batch)] ++ l).
        rewrite !resolver_calls_app, resolver_calls_loop_events. cbn.
        apply app_nil_r. }
      destruct (for_each _ _) as [res_v1|e]; [|exact Hloop].
      pose proof (files_after_writes res_v1
                    (map as_v2_string (omap (resolved w3) (v2 batch)))
                    (world_after_loop w3 batch w)) as (_ & _ & _ & Htrace).
      cbv zeta in Htrace. rewrite Htrace, resolver_calls_app, Hloop.
      cbn. apply app_nil_r.
    + intros t. by rewrite elem_of_set_iter, elem_of_get_all_tokens.
Qed.

(** C9: a batch is empty when both lists are; on such a batch the run
    returns having only printed that no token is missing: no file or
    directory is written, no token is resolved and no contract is read. On
    any other batch, on a supported network, the run returns after it has
    constructed [TokenDetails] for the members of the work set, of which
    there is at least one, and both files exist. *)
Theorem empty_batch_short_circuit chain batch w :
  (is_empty batch = true ↔ v1 batch = [] ∧ v2 batch = [])
  ∧ (is_empty batch = true →
     ∃ w', process_missing_tokens chain w3 batch w = (Ok tt, w')
       ∧ files w' = files w ∧ dirs w' = dirs w
       ∧ trace w' = trace w ++ [Print (none_message chain)]
       ∧ resolver_calls (trace w') = resolver_calls (trace w)
       ∧ eth_calls (trace w') = eth_calls (trace w))
  ∧ (is_empty batch = false → supported chain = true →
     ∃ w', process_missing_tokens chain w3 batch w = (Ok tt, w')
       ∧ resolver_calls (trace w')
         = resolver_calls (trace w) ++ set_iter (get_all_tokens batch)
       ∧ set_iter (get_all_tokens batch) ≠ []
       ∧ is_Some (files w' !! "./out/missing-tokens-v1.txt")
       ∧ is_Some (files w' !! "./out/missing-tokens-v2.txt")).
Proof.
  split; [apply is_empty_spec|]. split.
  - intros He. eexists. split; [by apply process_missing_tokens_empty|].
    cbn [emit_event files dirs trace].
    rewrite resolver_calls_app, eth_calls_app. cbn. by rewrite !app_nil_r.
  - intros He Hchain.
    destruct (as_v1_string_supported chain (omap (resolved w3) (v1 batch)) Hchain)
      as [rows1 Hrows1].
    pose proof (files_after_writes rows1
                  (map as_v2_string (omap (resolved w3) (v2 batch)))
                  (world_after_loop w3 batch w)) as (Hok & H1 & H2 & Htrace).
    cbv zeta in H1, H2, Htrace.
    exists (snd (process_missing_tokens chain w3 batch w)).
    rewrite process_missing_tokens_run, Hrows1 by done.
    split; [rewrite <- Hok; apply surjective_pairing|].
    split; [|split; [|by rewrite H1, H2]].
    + rewrite Htrace. unfold world_after_loop. cbn [trace].
      change (Print (found_message batch) :: ?l) with ([Print (found_message batch)] ++ l).
      rewrite !resolver_calls_app, resolver_calls_loop_events. cbn.
      by rewrite !app_nil_r.
    + intros Hnil.
      assert (∃ t, t ∈ v1 batch ∨ t ∈ v2 batch) as [t Ht].
      { unfold is_empty in He.
        destruct (v1 batch) as [|t ?]; [destruct (v2 batch) as [|t ?]; [done|]|].
        - exists t. right. by left.
        - exists t. left. by left. }
      apply elem_of_get_all_tokens, elem_of_set_iter in Ht.
      rewrite Hnil in Ht. by apply elem_of_nil in Ht.
Qed.

(** C10: the loop over the work set returns, and when it does every
    address of the work set is a key of the dict or a member of the skip
    list and none is both; so for every address of [v1] or [v2] that is not
    in the skip list, the lookup the projection makes in the dict finds a
    record. *)
Theorem details_and_skipped_partition batch w :
  ∃ token_details skipped w1,
    resolve_tokens w3 (set_iter (get_all_tokens batch)) ∅ [] w
    = (Ok (token_details, skipped), w1)
    ∧ (∀ t, t ∈ get_all_tokens batch ↔ t ∈ dom token_details ∨ t ∈ skipped)
    ∧ (∀ t, ¬ (t ∈ dom token_details ∧ t ∈ skipped))
    ∧ (∀ t, t ∈ v1 batch ∨ t ∈ v2 batch → t ∉ skipped →
            ∃ details, getitem token_details t (Address_str t) = Ok details).
Proof.
  eexists _, _, _. split; [apply resolve_tokens_run|]. cbn [app].
  assert (∀ t, t ∈ dom (details_after w3 (set_iter (get_all_tokens batch)) ∅)
               ↔ t ∈ get_all_tokens batch ∧ is_Some (resolved w3 t)) as Hdom.
  { intros t. rewrite elem_of_dom, lookup_details_after.
    destruct (decide (t ∈ set_iter (get_all_tokens batch))) as [Hin|Hnin].
    - apply elem_of_set_iter in Hin.
      destruct (resolved w3 t) as [d|]; [by split; eauto|].
      rewrite lookup_empty. split; [by intros [? ?] | by intros [_ [? ?]]].
    - rewrite lookup_empty. rewrite elem_of_set_iter in Hnin.
      split; [by intros [? ?] | by intros [? _]]. }
  split; [|split].
  - intros t. rewrite Hdom, elem_of_skipped_of, elem_of_set_iter.
    destruct (resolved w3 t) as [d|]; split; try tauto; eauto.
  - intros t [[_ [d Hd]]%Hdom [_ Hs]%elem_of_skipped_of]. congruence.
  - intros t Ht Hns. apply elem_of_get_all_tokens in Ht.
    destruct (loop_agrees batch t Ht) as [Hdict Hskip].
    unfold getitem. rewrite Hdict.
    destruct (resolved w3 t) as [d|]; [by exists d|].
    exfalso. apply Hns. by apply Hskip.
Qed.

(** On a network outside the supported set the V1 formatter raises on
    the first record it is given. *)
Lemma for_each_as_v1_string_unsupported chain (d : TokenDetails) (ds : list TokenDetails) :
  supported chain = false →
  for_each (fun d => as_v1_string d chain) (d :: ds)
  = Raise (ValueError ("Incompatible Network " +:+ Network_str chain)).
Proof. intros Hchain. by destruct chain. Qed.

(** X1: the one way a run on a batch can raise. On a network outside the
    supported set, as soon as an address of [v1] resolved, the V1 formatter
    raises its [ValueError]; the run ends there and has written no file and
    made no directory, the V2 file included. *)
Theorem unsupported_network_aborts_before_writing chain batch w t (d : TokenDetails) :
  supported chain = false →
  t ∈ v1 batch →
  resolved w3 t = Some d →
  ∃ w', process_missing_tokens chain w3 batch w
        = (Raise (ValueError ("Incompatible Network " +:+ Network_str chain)), w')
    ∧ files w' = files w ∧ dirs w' = dirs w.
Proof.
  intros Hchain Hin Hres.
  assert (is_empty batch = false) as He.
  { unfold is_empty. destruct (v1 batch); [by apply elem_of_nil in Hin | done]. }
  assert (d ∈ omap (resolved w3) (v1 batch)) as Hd.
  { apply list_elem_of_omap. eauto. }
  exists (world_after_loop w3 batch w).
  rewrite process_missing_tokens_run by done.
  destruct (omap (resolved w3) (v1 batch)) as [|d' ds]; [by apply elem_of_nil in Hd|].
  by rewrite for_each_as_v1_string_unsupported.
Qed.

(** ** The sources a run queries *)

Lemma fetch_missing_tokens_run (dune : DuneClient) chain w :
  fetch_missing_tokens dune chain w
  = (result_bind (refresh dune (v2_query chain)) (for_each row_token),
     mkWorld (dirs w) (files w)
       (trace w ++ [Print ("Fetching V2 missing tokens for " +:+ Network_str chain
                             +:+ " from " +:+ DuneQuery_url (v2_query chain));
                    DuneRefresh (v2_query chain)])).
Proof.
  unfold fetch_missing_tokens, dune_refresh, bind, print, emit, lift, emit_event.
  cbn [dirs files trace]. rewrite <- app_assoc.
  by destruct (refresh dune (v2_query chain)).
Qed.

(** Working on a batch sends nothing to the query service. *)
Lemma dune_queries_process_missing_tokens chain batch w :
  dune_queries (trace (snd (process_missing_tokens chain w3 batch w)))
  = dune_queries (trace w).
Proof.
  destruct (is_empty batch) eqn:He.
  - rewrite process_missing_tokens_empty by done.
    cbn [snd emit_event trace]. rewrite dune_queries_app. apply app_nil_r.
  - rewrite process_missing_tokens_run by done.
    assert (dune_queries (trace (world_after_loop w3 batch w)) = dune_queries (trace w))
      as Hloop.
    { unfold world_after_loop. cbn [trace].
      change (Print (found_message batch) :: ?l) with ([Print (found_message batch)] ++ l).
      rewrite !dune_queries_app, dune_queries_loop_events. cbn. apply app_nil_r. }
    destruct (for_each _ _) as [res_v1|e]; [|exact Hloop].
    pose proof (files_after_writes res_v1
                  (map as_v2_string (omap (resolved w3) (v2 batch)))
                  (world_after_loop w3 batch w)) as (_ & _ & _ & Htrace).
    cbv zeta in Htrace. rewrite Htrace, dune_queries_app, Hloop.
    cbn. apply app_nil_r.
Qed.

(** C3, as amended: a run queries the V2 source only. The batch it
    builds has the empty list as its V1 list and the list the V2 source
    returned as its V2 list, so the work set is the set of the addresses of
    the V2 list; the one query the run sends is the V2 query, whose id is
    not the id of the legacy V1 query for any network. *)
Theorem only_v2_source_is_queried chain (dune : DuneClient) w :
  fetch_missing_token_results dune chain w
  = (result_bind (fst (fetch_missing_tokens dune chain w))
       (fun l => Ok (mkMissingTokenResults [] l)),
     snd (fetch_missing_tokens dune chain w))
  ∧ (∀ l, get_all_tokens (mkMissingTokenResults [] l) = list_to_set l)
  ∧ dune_queries (trace (snd (run_missing_tokens chain w3 dune w)))
    = dune_queries (trace w) ++ [v2_query chain]
  ∧ legacy_query_id chain ≠ Ok (query_id (v2_query chain)).
Proof.
  assert (fetch_missing_token_results dune chain w
          = (result_bind (fst (fetch_missing_tokens dune chain w))
               (fun l => Ok (mkMissingTokenResults [] l)),
             snd (fetch_missing_tokens dune chain w))) as Hfetch.
  { unfold fetch_missing_token_results, bind, ret.
    by destruct (fetch_missing_tokens dune chain w) as [[l|e] w1]. }
  split; [exact Hfetch|]. split; [done|]. split; [|by destruct chain].
  unfold run_missing_tokens, bind. rewrite Hfetch, fetch_missing_tokens_run.
  cbn [fst snd].
  assert (∀ tr, dune_queries (tr ++ [Print ("Fetching V2 missing tokens for "
                                              +:+ Network_str chain +:+ " from "
                                              +:+ DuneQuery_url (v2_query chain));
                                     DuneRefresh (v2_query chain)])
                = dune_queries tr ++ [v2_query chain]) as Hq.
  { intros tr. by rewrite dune_queries_app. }
  destruct (result_bind (refresh dune (v2_query chain)) (for_each row_token)) as [l|e];
    cbn [result_bind].
  - rewrite dune_queries_process_missing_tokens. cbn [trace]. apply Hq.
  - cbn [snd trace]. apply Hq.
Qed.

End Run.

(** * Further properties of the script *)

(** ** Writing a file and reading it back *)









(** ** Constructing [TokenDetails] for a token that is not the native asset *)

Section Reads.
Context {ext : Externals}.

(** X5: for a token whose check-summed address is not the native asset's,
    the constructor reads [symbol] and then [decimals] at that address and
    returns the record of the address and the two answers; it raises what
    the first failing read raises, and when [symbol] fails [decimals] is
    not read at all. *)
Theorem token_details_reads_symbol_then_decimals
    (token : Address) (w3 : Web3) (w : World) (c n : string) :
  toChecksumAddress (Address_address token) = Ok c →
  toChecksumAddress NATIVE_ASSET = Ok n →
  c ≠ n →
  fst (TokenDetails_init token w3 w)
  = result_bind (eth_symbol w3 c) (fun sym =>
    result_bind (eth_decimals w3 c) (fun dec =>
    Ok (mkTokenDetails c sym dec)))
  ∧ eth_calls (trace (snd (TokenDetails_init token w3 w)))
    = eth_calls (trace w)
      ++ (c, "symbol") :: match eth_symbol w3 c with
                          | Ok _ => [(c, "decimals")]
                          | Raise _ => []
                          end.
Proof.
  intros Htoken Hnative Hne.
  unfold TokenDetails_init, call_symbol, call_decimals, bind, emit, lift, ret, emit_event.
  cbn [dirs files trace]. rewrite Htoken, Hnative.
  apply String.eqb_neq in Hne. rewrite Hne.
  destruct (eth_symbol w3 c) as [sym|e]; cbn [fst snd trace result_bind].
  - destruct (eth_decimals w3 c) as [dec|e]; cbn [fst snd trace result_bind].
    all: split; [done|]; rewrite !eth_calls_app; cbn; by rewrite app_nil_r, <- app_assoc.
  - split; [done|]. rewrite !eth_calls_app. cbn. by rewrite app_nil_r.
Qed.

End Reads.

(** ** The sources *)

Section Sources.
Context {ext : Externals}.
Implicit Types (dune : DuneClient) (chain : Network) (w : World).

Lemma row_token_ok (row : Row) (a : Address) :
  row_token row = Ok a ↔ ∃ token, row !! "token" = Some token ∧ Address_new token = Ok a.
Proof.
  unfold row_token, getitem. destruct (row !! "token") as [token|]; cbn [result_bind].
  - split; [by eauto | by intros (? & [= <-] & ?)].
  - split; [done | by intros (? & ? & _)].
Qed.

Lemma for_each_first_failure {A B} (f : A → result B) (xs1 : list A) (x : A)
    (xs2 : list A) (e : exn) :
  Forall (fun y => ∃ b, f y = Ok b) xs1 →
  f x = Raise e →
  for_each f (xs1 ++ x :: xs2) = Raise e.
Proof.
  intros Hxs1 Hx. induction Hxs1 as [|y ys [b Hy] _ IH]; cbn [app for_each].
  - by rewrite Hx.
  - by rewrite Hy, IH.
Qed.

(** X6: [fetch_missing_tokens] returns a list exactly when the query
    service answers and every row has a [token] column holding a valid
    address; the list then has one address per row, in row order. In every
    other case it raises: it never returns part of the rows. *)
Theorem fetch_missing_tokens_all_rows_or_nothing dune chain w (addresses : list Address) :
  fst (fetch_missing_tokens dune chain w) = Ok addresses
  ↔ ∃ rows, refresh dune (v2_query chain) = Ok rows
            ∧ Forall2 (fun (row : Row) a =>
                         ∃ token, row !! "token" = Some token ∧ Address_new token = Ok a)
                      rows addresses.
Proof.
  rewrite fetch_missing_tokens_run. cbn [fst].
  destruct (refresh dune (v2_query chain)) as [rows|e]; cbn [result_bind].
  - rewrite for_each_Forall2. split.
    + intros Hrows. exists rows. split; [done|].
      eapply Forall2_impl; [exact Hrows|]. intros row a Ha. by apply row_token_ok.
    + intros (rows' & [= <-] & Hrows).
      eapply Forall2_impl; [exact Hrows|]. intros row a Ha. by apply row_token_ok.
  - split; [done | by intros (? & ? & _)].
Qed.

(** X7: when a row of the answer has no [token] column and the rows
    before it are well formed, [fetch_missing_tokens] raises
    [KeyError('token')], whatever follows that row. *)
Theorem fetch_missing_tokens_missing_column dune chain w (rows1 : list Row) (row : Row)
    (rows2 : list Row) :
  refresh dune (v2_query chain) = Ok (rows1 ++ row :: rows2) →
  Forall (fun r => ∃ a, row_token r = Ok a) rows1 →
  row !! "token" = None →
  fst (fetch_missing_tokens dune chain w) = Raise (KeyError "token").
Proof.
  intros Hrefresh Hrows1 Hrow. rewrite fetch_missing_tokens_run, Hrefresh.
  cbn [fst result_bind]. apply for_each_first_failure; [done|].
  unfold row_token, getitem. by rewrite Hrow.
Qed.

(** X8: the legacy V1 source. On a network outside the supported set it
    raises [KeyError] before it prints or sends anything. On a supported
    network it sends one query, without parameters, under the id of that
    network, and like the V2 source it returns a list exactly when the
    service answers and every row converts, one address per row in row
    order. The ids of the two supported networks differ. *)
Theorem fetch_missing_tokens_legacy_behaviour dune chain w :
  match legacy_query_id chain with
  | Raise e =>
      supported chain = false
      ∧ fetch_missing_tokens_legacy dune chain w = (Raise (KeyError (Network_str chain)), w)
  | Ok id =>
      let query := mkDuneQuery "V1: Missing Tokens" id [] in
      supported chain = true
      ∧ dune_queries (trace (snd (fetch_missing_tokens_legacy dune chain w)))
        = dune_queries (trace w) ++ [query]
      ∧ ∀ addresses,
          fst (fetch_missing_tokens_legacy dune chain w) = Ok addresses
          ↔ ∃ rows, refresh dune query = Ok rows
                    ∧ Forall2 (fun (row : Row) a =>
                                 ∃ token, row !! "token" = Some token
                                          ∧ Address_new token = Ok a)
                              rows addresses
  end
  ∧ legacy_query_id MAINNET ≠ legacy_query_id GNOSIS.
Proof.
  split; [|done].
  assert (∀ id,
    legacy_query_id chain = Ok id →
    fetch_missing_tokens_legacy dune chain w
    = (result_bind (refresh dune (mkDuneQuery "V1: Missing Tokens" id []))
         (for_each row_token),
       mkWorld (dirs w) (files w)
         (trace w ++ [Print ("Fetching V1 missing tokens for " +:+ Network_str chain
                               +:+ " from "
                               +:+ DuneQuery_url (mkDuneQuery "V1: Missing Tokens" id []));
                      DuneRefresh (mkDuneQuery "V1: Missing Tokens" id [])]))) as Hrun.
  { intros id Hid.
    unfold fetch_missing_tokens_legacy, dune_refresh, bind, print, emit, lift, emit_event.
    rewrite Hid. cbn [dirs files trace]. rewrite <- app_assoc.
    by destruct (refresh dune (mkDuneQuery "V1: Missing Tokens" id [])). }
  destruct (legacy_query_id chain) as [id|e] eqn:Hid.
  - cbv zeta. rewrite (Hrun id eq_refl). cbn [fst snd trace].
    split; [by destruct chain|]. split; [by rewrite dune_queries_app|].
    intros addresses.
    destruct (refresh dune (mkDuneQuery "V1: Missing Tokens" id [])) as [rows|e];
      cbn [result_bind].
    + rewrite for_each_Forall2. split.
      * intros Hrows. exists rows. split; [done|].
        eapply Forall2_impl; [exact Hrows|]. intros row a Ha. by apply row_token_ok.
      * intros (rows' & [= <-] & Hrows).
        eapply Forall2_impl; [exact Hrows|]. intros row a Ha. by apply row_token_ok.
    + split; [done | by intros (? & ? & _)].
  - destruct chain as [| |name]; try discriminate Hid.
    split; [done|].
    unfold fetch_missing_tokens_legacy, bind, lift. done.
Qed.

(** X9: a failure of the source is fatal to the run: when
    [fetch_missing_tokens] raises, [run_missing_tokens] raises the same
    error, and it has resolved no token, read no contract and written no
    file or directory. *)
Theorem source_failure_aborts_run chain (w3 : Web3) dune w (e : exn) :
  fst (fetch_missing_tokens dune chain w) = Raise e →
  ∃ w', run_missing_tokens chain w3 dune w = (Raise e, w')
    ∧ files w' = files w ∧ dirs w' = dirs w
    ∧ resolver_calls (trace w') = resolver_calls (trace w)
    ∧ eth_calls (trace w') = eth_calls (trace w).
Proof.
  intros Hfetch. rewrite fetch_missing_tokens_run in Hfetch. cbn [fst] in Hfetch.
  unfold run_missing_tokens, fetch_missing_token_results, bind.
  rewrite fetch_missing_tokens_run, Hfetch.
  eexists. split; [done|]. cbn [files dirs trace].
  rewrite resolver_calls_app, eth_calls_app. cbn. by rewrite !app_nil_r.
Qed.

End Sources.

(** ** The entry point *)

Section EntryPointProperties.
Context {ext : Externals} {conn : Connectors}.

(** X10: the [__main__] block runs the script for mainnet and for no
    other network. It prints its banner first; when [INFURA_KEY] is
    missing from the environment it then raises [KeyError('INFURA_KEY')],
    and when only [DUNE_API_KEY] is missing, [KeyError('DUNE_API_KEY')],
    in both cases with the banner as its only effect: no query is sent and
    nothing is written. With both keys it is the run on mainnet with the
    clients built from them. *)
Theorem main_reads_keys_before_running (environ : gmap string string) (w : World) :
  let w0 := emit_event (Print "Execute on Network Network.MAINNET") w in
  match environ !! "INFURA_KEY", environ !! "DUNE_API_KEY" with
  | None, _ => main environ w = (Raise (KeyError "INFURA_KEY"), w0)
  | Some _, None => main environ w = (Raise (KeyError "DUNE_API_KEY"), w0)
  | Some infura_key, Some dune_api_key =>
      main environ w
      = run_missing_tokens MAINNET (Web3_connect (node_url MAINNET infura_key))
          (DuneClient_new dune_api_key) w0
  end.
Proof.
  cbv zeta. unfold main. cbn [for_in].
  unfold bind at 1. unfold bind at 1. unfold print at 1, emit at 1.
  unfold run_missing_tokens_environ, environ_get, getitem.
  unfold bind at 1. unfold lift at 1.
  destruct (environ !! "INFURA_KEY") as [infura_key|]; [|done].
  unfold bind at 1. unfold lift at 1.
  destruct (environ !! "DUNE_API_KEY") as [dune_api_key|]; [|done].
  unfold ret.
  by destruct (run_missing_tokens _ _ _ _) as [[[]|e] w'].
Qed.

End EntryPointProperties.

(** ** The order in which the work set is iterated *)

Section IterationOrder.
Context {ext : Externals} (w3 : Web3).
Implicit Types (t : Address) (l tokens skipped : list Address).

Lemma for_each_if_ext {A B} (f : A → result B) (cond1 cond2 : A → bool) (xs : list A) :
  (∀ x, x ∈ xs → cond1 x = cond2 x) →
  for_each_if f cond1 xs = for_each_if f cond2 xs.
Proof.
  induction xs as [|x xs IH]; intros Hcond; [done|].
  cbn [for_each_if]. rewrite (Hcond x) by (by left).
  rewrite IH by (intros y Hy; apply Hcond; by right). done.
Qed.

Lemma not_in_Permutation skipped1 skipped2 t :
  skipped1 ≡ₚ skipped2 → not_in skipped1 t = not_in skipped2 t.
Proof. intros Hperm. unfold not_in. apply bool_decide_ext. by rewrite Hperm. Qed.

(** X11: the order in which the set yields the tokens does not reach the
    output. Two loops over the same tokens in different orders end with
    the same dict and with skip lists that hold the same tokens, so the
    rows computed for any source list are the same. *)
Theorem projection_independent_of_iteration_order tokens1 tokens2 (w : World) :
  tokens1 ≡ₚ tokens2 →
  ∃ token_details skipped1 skipped2 w1 w2,
    resolve_tokens w3 tokens1 ∅ [] w = (Ok (token_details, skipped1), w1)
    ∧ resolve_tokens w3 tokens2 ∅ [] w = (Ok (token_details, skipped2), w2)
    ∧ skipped1 ≡ₚ skipped2
    ∧ ∀ chain l,
        res_v1_of chain token_details skipped1 l = res_v1_of chain token_details skipped2 l
        ∧ res_v2_of token_details skipped1 l = res_v2_of token_details skipped2 l.
Proof.
  intros Hperm.
  assert (details_after w3 tokens1 ∅ = details_after w3 tokens2 ∅) as Hdict.
  { apply map_eq. intros t. rewrite !lookup_details_after.
    destruct (decide (t ∈ tokens1)) as [Hin|Hnin].
    - rewrite decide_True; [done | by rewrite <- Hperm].
    - rewrite decide_False; [done | by rewrite <- Hperm]. }
  assert (skipped_of w3 tokens1 ≡ₚ skipped_of w3 tokens2) as Hskip.
  { unfold skipped_of. by rewrite Hperm. }
  exists (details_after w3 tokens1 ∅), (skipped_of w3 tokens1), (skipped_of w3 tokens2).
  eexists _, _.
  split; [rewrite resolve_tokens_run; cbn [app]; reflexivity|].
  split; [rewrite Hdict, resolve_tokens_run; cbn [app]; reflexivity|].
  split; [exact Hskip|].
  intros chain l. unfold res_v1_of, res_v2_of.
  split; apply for_each_if_ext; intros t _; by apply not_in_Permutation.
Qed.

End IterationOrder.

(** ** More on a whole run on a batch *)

Section RunFurther.
Context {ext : Externals} (w3 : Web3).
Implicit Types (t : Address) (batch : MissingTokenResults) (chain : Network) (w : World).
Implicit Types (l tokens : list Address).

(** Iterating a set yields each member once, in some order. *)
Hypothesis set_iter_elements : ∀ X : gset Address, set_iter X ≡ₚ elements X.

(** The contract reads of one construction: at most two, each of
    [symbol] or [decimals], at the token's check-summed address, which is
    not the native asset's. *)
Lemma eth_calls_resolution_events t :
  length (eth_calls (resolution_events w3 t)) ≤ 2
  ∧ ∀ c m, (c, m) ∈ eth_calls (resolution_events w3 t) →
      (m = "symbol" ∨ m = "decimals")
      ∧ toChecksumAddress (Address_address t) = Ok c
      ∧ toChecksumAddress NATIVE_ASSET ≠ Ok c.
Proof.
  unfold resolution_events, TokenDetails_init, call_symbol, call_decimals.
  unfold bind, emit, lift, ret, emit_event, empty_world. cbn [dirs files trace app].
  destruct (toChecksumAddress (Address_address t)) as [c|e]; cbn [snd trace];
    [|split; [cbn; lia | by intros ? ? ?%elem_of_nil]].
  destruct (toChecksumAddress NATIVE_ASSET) as [n|e]; cbn [snd trace];
    [|split; [cbn; lia | by intros ? ? ?%elem_of_nil]].
  destruct (String.eqb c n) eqn:Hcn; cbn [snd trace];
    [split; [cbn; lia | by intros ? ? ?%elem_of_nil]|].
  apply String.eqb_neq in Hcn.
  assert (Ok n ≠ Ok c) as Hne by (intros [= ->]; done).
  destruct (eth_symbol w3 c) as [sym|e]; cbn [snd trace].
  - destruct (eth_decimals w3 c) as [dec|e]; cbn [snd trace].
    all: split; [cbn; lia|].
    all: intros c' m [[= -> ->]|[[= -> ->]|[]%elem_of_nil]%elem_of_cons]%elem_of_cons.
    all: split; [tauto | done].
  - split; [cbn; lia|].
    intros c' m [[= -> ->]|[]%elem_of_nil]%elem_of_cons.
    split; [tauto | done].
Qed.

Lemma eth_calls_loop_events tokens :
  eth_calls (loop_events w3 tokens)
  = flat_map (fun t => eth_calls (resolution_events w3 t)) tokens.
Proof.
  induction tokens as [|t tokens IH]; [done|].
  cbn [loop_events flat_map]. fold (loop_events w3 tokens).
  rewrite !eth_calls_app, IH. f_equal.
  destruct (resolution w3 t); cbn; by rewrite app_nil_r.
Qed.

Lemma length_flat_map_eth_calls tokens :
  length (flat_map (fun t => eth_calls (resolution_events w3 t)) tokens) ≤ 2 * length tokens.
Proof.
  induction tokens as [|t tokens IH]; [done|].
  cbn [flat_map length]. rewrite length_app.
  pose proof (eth_calls_resolution_events t) as [Hle _]. lia.
Qed.

(** The contract reads of a run on a batch are those of the loop. *)
Lemma eth_calls_process_missing_tokens chain batch w :
  eth_calls (trace (snd (process_missing_tokens chain w3 batch w)))
  = eth_calls (trace w)
    ++ if is_empty batch then []
       else flat_map (fun t => eth_calls (resolution_events w3 t))
              (set_iter (get_all_tokens batch)).
Proof.
  destruct (is_empty batch) eqn:He.
  - rewrite process_missing_tokens_empty by done.
    cbn [snd emit_event trace]. by rewrite eth_calls_app.
  - rewrite process_missing_tokens_run by done.
    assert (eth_calls (trace (world_after_loop w3 batch w))
            = eth_calls (trace w)
              ++ flat_map (fun t => eth_calls (resolution_events w3 t))
                   (set_iter (get_all_tokens batch))) as Hloop.
    { unfold world_after_loop. cbn [trace].
      change (Print (found_message batch) :: ?l) with ([Print (found_message batch)] ++ l).
      rewrite !eth_calls_app, eth_calls_loop_events. cbn. by rewrite app_nil_r. }
    destruct (for_each _ _) as [res_v1|e]; [|exact Hloop].
    pose proof (files_after_writes res_v1
                  (map as_v2_string (omap (resolved w3) (v2 batch)))
                  (world_after_loop w3 batch w)) as (_ & _ & _ & Htrace).
    cbv zeta in Htrace. rewrite Htrace, eth_calls_app, Hloop.
    cbn. by rewrite app_nil_r.
Qed.

(** X12: a run on a batch reads at most two contract values per member
    of the work set. Every read is a [symbol] or a [decimals] read at the
    check-summed address of an address of the batch, and never at the
    native asset's address. *)
Theorem run_reads_at_most_twice_per_address chain batch w :
  ∃ reads,
    eth_calls (trace (snd (process_missing_tokens chain w3 batch w)))
    = eth_calls (trace w) ++ reads
    ∧ length reads ≤ 2 * size (get_all_tokens batch)
    ∧ ∀ c m, (c, m) ∈ reads →
        (m = "symbol" ∨ m = "decimals")
        ∧ toChecksumAddress NATIVE_ASSET ≠ Ok c
        ∧ ∃ t, (t ∈ v1 batch ∨ t ∈ v2 batch)
               ∧ toChecksumAddress (Address_address t) = Ok c.
Proof.
  eexists. split; [apply eth_calls_process_missing_tokens|].
  destruct (is_empty batch) eqn:He.
  - split; [cbn; lia | by intros ? ? ?%elem_of_nil].
  - split.
    + rewrite <- (length_set_iter set_iter_elements). apply length_flat_map_eth_calls.
    + intros c m Hin. apply list_elem_of_In, in_flat_map in Hin as (t & Ht & Hin).
      apply list_elem_of_In in Ht, Hin.
      apply (elem_of_set_iter set_iter_elements), elem_of_get_all_tokens in Ht.
      pose proof (eth_calls_resolution_events t) as [_ Hreads].
      destruct (Hreads c m Hin) as (Hm & Hc & Hn). eauto.
Qed.

(** X13: a run on a batch touches nothing of the file system but its two
    output files and the directory [./out]: every other file is as it was,
    no directory is removed, and no directory other than [./out] is made.
    This holds also when the run raises. *)
Theorem run_touches_only_output_files chain batch w :
  let w' := snd (process_missing_tokens chain w3 batch w) in
  (∀ p, p ≠ "./out/missing-tokens-v1.txt" → p ≠ "./out/missing-tokens-v2.txt" →
        files w' !! p = files w !! p)
  ∧ dirs w ⊆ dirs w'
  ∧ dirs w' ⊆ {["./out"]} ∪ dirs w.
Proof.
  cbv zeta. destruct (is_empty batch) eqn:He.
  - rewrite process_missing_tokens_empty by done. cbn [snd emit_event files dirs].
    split; [done|]. split; [done | apply union_subseteq_r].
  - rewrite process_missing_tokens_run by done.
    destruct (for_each _ _) as [res_v1|e].
    + unfold bind. rewrite !write_results_run. cbn [snd files dirs world_after_loop].
      change (path_join "./out" "missing-tokens-v1.txt") with "./out/missing-tokens-v1.txt".
      change (path_join "./out" "missing-tokens-v2.txt") with "./out/missing-tokens-v2.txt".
      split; [intros p Hp1 Hp2; by rewrite !lookup_insert_ne by done|].
      split; intros x Hx; repeat case_bool_decide;
        rewrite ?elem_of_union in *; tauto.
    + cbn [snd world_after_loop files dirs].
      split; [done|]. split; [done | apply union_subseteq_r].
Qed.

(** X14: an address that is in both lists and resolves is resolved once
    and rendered twice: on a supported network the run returns, the V1 file
    holds its V1 row, the V2 file holds its V2 row, and among the resolver
    calls the run added the address occurs once. *)
Theorem shared_address_resolved_once_rendered_twice chain batch w t (d : TokenDetails) :
  supported chain = true →
  t ∈ v1 batch →
  t ∈ v2 batch →
  resolved w3 t = Some d →
  ∃ row1 rows1 rows2 calls w',
    process_missing_tokens chain w3 batch w = (Ok tt, w')
    ∧ files w' !! "./out/missing-tokens-v1.txt" = Some (file_content rows1)
    ∧ files w' !! "./out/missing-tokens-v2.txt" = Some (file_content rows2)
    ∧ as_v1_string d chain = Ok row1
    ∧ row1 ∈ rows1
    ∧ as_v2_string d ∈ rows2
    ∧ resolver_calls (trace w') = resolver_calls (trace w) ++ calls
    ∧ NoDup calls
    ∧ t ∈ calls.
Proof.
  intros Hchain Hin1 Hin2 Hres.
  assert (is_empty batch = false) as He.
  { unfold is_empty. destruct (v1 batch); [by apply elem_of_nil in Hin1 | done]. }
  destruct (as_v1_string_supported chain (omap (resolved w3) (v1 batch)) Hchain)
    as [rows1 Hrows1].
  pose proof (proj1 (for_each_Forall2 _ _ _) Hrows1) as Hall.
  assert (d ∈ omap (resolved w3) (v1 batch)) as Hd1 by (apply list_elem_of_omap; eauto).
  apply list_elem_of_lookup_1 in Hd1 as [i Hi].
  destruct (Forall2_lookup_l _ _ _ _ _ Hall Hi) as (row1 & Hrow1 & Hd).
  pose proof (files_after_writes rows1
                (map as_v2_string (omap (resolved w3) (v2 batch)))
                (world_after_loop w3 batch w)) as (Hok & H1 & H2 & Htrace).
  cbv zeta in H1, H2, Htrace.
  exists row1, rows1, (map as_v2_string (omap (resolved w3) (v2 batch))),
    (set_iter (get_all_tokens batch)), (snd (process_missing_tokens chain w3 batch w)).
  rewrite process_missing_tokens_run, Hrows1 by done.
  split; [rewrite <- Hok; apply surjective_pairing|].
  split; [exact H1|]. split; [exact H2|]. split; [exact Hd|].
  split; [by eapply list_elem_of_lookup_2|].
  split.
  { apply list_elem_of_In, in_map, list_elem_of_In, list_elem_of_omap. eauto. }
  split.
  { rewrite Htrace. unfold world_after_loop. cbn [trace].
    change (Print (found_message batch) :: ?l) with ([Print (found_message batch)] ++ l).
    rewrite !resolver_calls_app, resolver_calls_loop_events. cbn.
    by rewrite !app_nil_r. }
  split; [apply (NoDup_set_iter set_iter_elements)|].
  apply (elem_of_set_iter set_iter_elements), elem_of_get_all_tokens. by left.
Qed.

Lemma length_omap_resolved_filter_skipped (skipped l : list Address) :
  (∀ t, t ∈ l → (t ∈ skipped ↔ resolved w3 t = None)) →
  length (omap (resolved w3) l) + length (filter (fun t => t ∈ skipped) l) = length l.
Proof.
  induction l as [|t l IH]; intros Hl; [done|].
  rewrite filter_cons.
  change (omap (resolved w3) (t :: l))
    with (match resolved w3 t with
          | Some d => d :: omap (resolved w3) l
          | None => omap (resolved w3) l
          end).
  destruct (Hl t) as [Hs1 Hs2]; [by left|].
  assert (length (omap (resolved w3) l) + length (filter (fun t => t ∈ skipped) l)
          = length l) as IH' by (apply IH; intros t' Ht'; apply Hl; by right).
  destruct (resolved w3 t) as [d|] eqn:Hres.
  - rewrite decide_False by (intros Hin; specialize (Hs1 Hin); discriminate).
    cbn [length]. lia.
  - rewrite decide_True by (by apply Hs2). cbn [length]. lia.
Qed.

(** X15: nothing is lost between the source lists and the output. After
    the loop, for each of the two lists, the number of rows the projection
    returns and the number of entries of the list that are in the skip
    list add up to the length of the list, repeated entries counted as
    often as they occur. *)
Theorem every_entry_rendered_or_skipped batch w :
  ∃ token_details skipped w1,
    resolve_tokens w3 (set_iter (get_all_tokens batch)) ∅ [] w
    = (Ok (token_details, skipped), w1)
    ∧ (∃ rows2, res_v2_of token_details skipped (v2 batch) = Ok rows2
                ∧ length rows2 + length (filter (fun t => t ∈ skipped) (v2 batch))
                  = length (v2 batch))
    ∧ (∀ chain rows1, res_v1_of chain token_details skipped (v1 batch) = Ok rows1 →
                      length rows1 + length (filter (fun t => t ∈ skipped) (v1 batch))
                      = length (v1 batch)).
Proof.
  exists (details_after w3 (set_iter (get_all_tokens batch)) ∅),
    (skipped_of w3 (set_iter (get_all_tokens batch))).
  eexists. split; [rewrite resolve_tokens_run; cbn [app]; reflexivity|].
  split.
  - eexists. split; [by apply res_v2_of_run|].
    rewrite length_map. apply length_omap_resolved_filter_skipped.
    intros t Ht. apply (loop_agrees w3 set_iter_elements), elem_of_get_all_tokens. by right.
  - intros chain rows1 Hrows1. rewrite res_v1_of_run in Hrows1 by done.
    apply for_each_Forall2, Forall2_length in Hrows1. rewrite <- Hrows1.
    apply length_omap_resolved_filter_skipped.
    intros t Ht. apply (loop_agrees w3 set_iter_elements), elem_of_get_all_tokens. by left.
Qed.

End RunFurther.

(** * Concrete runs *)

#[local] Existing Instance plain_externals.

(** The sample batch on mainnet, evaluated: the rows of both files. *)
Example sample_run_files :
  let r := process_missing_tokens MAINNET sample_web3 sample_batch empty_world in
  fst r = Ok tt
  ∧ files (snd r) !! "./out/missing-tokens-v1.txt"
    = Some (file_content ["\\x96B00208911d72eA9f10c3303fF319427A7884C9" +:+ TAB +:+ "BLUE"
                            +:+ TAB +:+ "18";
                          "\\x96B00208911d72eA9f10c3303fF319427A7884C9" +:+ TAB +:+ "BLUE"
                            +:+ TAB +:+ "18"])
  ∧ files (snd r) !! "./out/missing-tokens-v2.txt"
    = Some (file_content ["('0xeeeeeeeeeeeeeeeeeeeeeeeeeeeeeeeeeeeeeeee', 'ETH', 18),";
                          "('0x96b00208911d72ea9f10c3303ff319427a7884c9', 'BLUE', 18),"]).
Proof. vm_compute. done. Qed.

(** C1 on the sample batch: two of its four distinct addresses fail. *)
Lemma resolver_failures_are_skipped_witness :
  (∀ X : gset Address, set_iter X ≡ₚ elements X)
  ∧ supported MAINNET = true
  ∧ ∃ token_details skipped w1 rows1 w',
      resolve_tokens sample_web3 (set_iter (get_all_tokens sample_batch)) ∅ [] empty_world
      = (Ok (token_details, skipped), w1)
      ∧ (∀ t, t ∈ skipped ↔ (t ∈ v1 sample_batch ∨ t ∈ v2 sample_batch)
                              ∧ resolved sample_web3 t = None)
      ∧ process_missing_tokens MAINNET sample_web3 sample_batch empty_world = (Ok tt, w')
      ∧ Forall2 (fun d row => as_v1_string d MAINNET = Ok row)
                (omap (resolved sample_web3) (v1 sample_batch)) rows1
      ∧ (is_empty sample_batch = false →
         files w' !! "./out/missing-tokens-v1.txt" = Some (file_content rows1)
         ∧ files w' !! "./out/missing-tokens-v2.txt"
           = Some (file_content (map as_v2_string
                                   (omap (resolved sample_web3) (v2 sample_batch))))).
Proof.
  split; [intros X; reflexivity|]. split; [reflexivity|].
  apply (@resolver_failures_are_skipped plain_externals sample_web3
           (fun X => reflexivity (elements X)) MAINNET sample_batch empty_world).
  reflexivity.
Defined.

(** C2 on the sample batch, whose lists overlap and repeat an address. *)
Lemma resolver_called_once_per_address_witness :
  (∀ X : gset Address, set_iter X ≡ₚ elements X)
  ∧ ∃ calls,
      resolver_calls (trace (snd (process_missing_tokens MAINNET sample_web3 sample_batch
                                    empty_world)))
      = resolver_calls (trace empty_world) ++ calls
      ∧ NoDup calls
      ∧ length calls = size (get_all_tokens sample_batch)
      ∧ (∀ t, t ∈ calls ↔ t ∈ v1 sample_batch ∨ t ∈ v2 sample_batch).
Proof.
  split; [intros X; reflexivity|].
  apply (@resolver_called_once_per_address plain_externals sample_web3
           (fun X => reflexivity (elements X)) MAINNET sample_batch empty_world).
Defined.

(** C9 on the empty batch. *)
Lemma empty_batch_short_circuit_witness :
  (∀ X : gset Address, set_iter X ≡ₚ elements X)
  ∧ (is_empty (mkMissingTokenResults [] []) = true ↔ v1 (mkMissingTokenResults [] []) = [] ∧ v2 (mkMissingTokenResults [] []) = [])
  ∧ (is_empty (mkMissingTokenResults [] []) = true →
     ∃ w', process_missing_tokens GNOSIS sample_web3 (mkMissingTokenResults [] []) empty_world = (Ok tt, w')
       ∧ files w' = files empty_world ∧ dirs w' = dirs empty_world
       ∧ trace w' = trace empty_world ++ [Print (none_message GNOSIS)]
       ∧ resolver_calls (trace w') = resolver_calls (trace empty_world)
       ∧ eth_calls (trace w') = eth_calls (trace empty_world))
  ∧ (is_empty (mkMissingTokenResults [] []) = false → supported GNOSIS = true →
     ∃ w', process_missing_tokens GNOSIS sample_web3 (mkMissingTokenResults [] []) empty_world = (Ok tt, w')
       ∧ resolver_calls (trace w')
         = resolver_calls (trace empty_world) ++ set_iter (get_all_tokens (mkMissingTokenResults [] []))
       ∧ set_iter (get_all_tokens (mkMissingTokenResults [] [])) ≠ []
       ∧ is_Some (files w' !! "./out/missing-tokens-v1.txt")
       ∧ is_Some (files w' !! "./out/missing-tokens-v2.txt")).
Proof.
  split; [intros X; reflexivity|].
  apply (@empty_batch_short_circuit plain_externals sample_web3
           (fun X => reflexivity (elements X)) GNOSIS (mkMissingTokenResults [] []) empty_world).
Defined.

(** C10 on the sample batch. *)
Lemma details_and_skipped_partition_witness :
  (∀ X : gset Address, set_iter X ≡ₚ elements X)
  ∧ ∃ token_details skipped w1,
      resolve_tokens sample_web3 (set_iter (get_all_tokens sample_batch)) ∅ [] empty_world
      = (Ok (token_details, skipped), w1)
      ∧ (∀ t, t ∈ get_all_tokens sample_batch ↔ t ∈ dom token_details ∨ t ∈ skipped)
      ∧ (∀ t, ¬ (t ∈ dom token_details ∧ t ∈ skipped))
      ∧ (∀ t, t ∈ v1 sample_batch ∨ t ∈ v2 sample_batch → t ∉ skipped →
              ∃ details, getitem token_details t (Address_str t) = Ok details).
Proof.
  split; [intros X; reflexivity|].
  apply (@details_and_skipped_partition plain_externals sample_web3
           (fun X => reflexivity (elements X)) sample_batch empty_world).
Defined.

(** C3, as amended, on the sample query service. *)
Lemma only_v2_source_is_queried_witness :
  (∀ X : gset Address, set_iter X ≡ₚ elements X)
  ∧ fetch_missing_token_results sample_dune MAINNET empty_world
    = (result_bind (fst (fetch_missing_tokens sample_dune MAINNET empty_world))
         (fun l => Ok (mkMissingTokenResults [] l)),
       snd (fetch_missing_tokens sample_dune MAINNET empty_world))
  ∧ (∀ l, get_all_tokens (mkMissingTokenResults [] l) = list_to_set l)
  ∧ dune_queries (trace (snd (run_missing_tokens MAINNET sample_web3 sample_dune empty_world)))
    = dune_queries (trace empty_world) ++ [v2_query MAINNET]
  ∧ legacy_query_id MAINNET ≠ Ok (query_id (v2_query MAINNET)).
Proof.
  split; [intros X; reflexivity|].
  apply (@only_v2_source_is_queried plain_externals sample_web3
           (fun X => reflexivity (elements X)) MAINNET sample_dune empty_world).
Defined.

(** C3 as stated fails: on a query service whose V1 source has a missing
    token, the run still sends the V2 query alone, never the V1 query, and
    nothing of the V1 source reaches the work set: the V1 file is empty. *)
Lemma v1_source_is_not_queried :
  let v1_query := mkDuneQuery "V1: Missing Tokens" 1317323 [] in
  let r := run_missing_tokens MAINNET sample_web3 sample_dune empty_world in
  fst (fetch_missing_tokens_legacy sample_dune MAINNET empty_world) = Ok [BLUE]
  ∧ dune_queries (trace (snd (fetch_missing_tokens_legacy sample_dune MAINNET empty_world)))
    = [v1_query]
  ∧ fst r = Ok tt
  ∧ dune_queries (trace (snd r)) = [v2_query MAINNET]
  ∧ ¬ (v1_query ∈ dune_queries (trace (snd r)))
  ∧ resolver_calls (trace (snd r)) = [BLUE]
  ∧ files (snd r) !! "./out/missing-tokens-v1.txt" = Some "".
Proof.
  cbv zeta.
  assert (dune_queries (trace (snd (run_missing_tokens MAINNET sample_web3 sample_dune
                                      empty_world)))
          = [v2_query MAINNET]) as Hq by (vm_compute; reflexivity).
  repeat split; try (vm_compute; reflexivity).
  rewrite Hq. intros Hin%list_elem_of_singleton. discriminate Hin.
Qed.

(** X1 on the sample batch and a network the formatter does not know. *)
Lemma unsupported_network_aborts_before_writing_witness :
  let chain := OTHER "polygon" in
  let d := mkTokenDetails (Address_address BLUE) "BLUE" 18 in
  (∀ X : gset Address, set_iter X ≡ₚ elements X)
  ∧ supported chain = false
  ∧ BLUE ∈ v1 sample_batch
  ∧ resolved sample_web3 BLUE = Some d
  ∧ ∃ w', process_missing_tokens chain sample_web3 sample_batch empty_world
          = (Raise (ValueError ("Incompatible Network " +:+ Network_str chain)), w')
      ∧ files w' = files empty_world ∧ dirs w' = dirs empty_world.
Proof.
  cbv zeta.
  assert (BLUE ∈ v1 sample_batch) as Hin by (simpl; left).
  split; [intros X; reflexivity|]. split; [reflexivity|].
  split; [exact Hin|]. split; [reflexivity|].
  apply (@unsupported_network_aborts_before_writing plain_externals sample_web3
           (fun X => reflexivity (elements X)) (OTHER "polygon") sample_batch empty_world
           BLUE (mkTokenDetails (Address_address BLUE) "BLUE" 18) eq_refl Hin eq_refl).
Defined.

(** ** Concrete runs for the further properties *)

#[local] Existing Instance plain_connectors.

(** The entry point with the node key alone in the environment. *)
Example main_without_dune_key :
  main {["INFURA_KEY" := "k"]} empty_world
  = (Raise (KeyError "DUNE_API_KEY"),
     mkWorld ∅ ∅ [Print "Execute on Network Network.MAINNET"]).
Proof. vm_compute. done. Qed.


(** X5 on a token whose [decimals] read fails. *)
Lemma token_details_reads_symbol_then_decimals_witness :
  let c := Address_address YCRV in
  toChecksumAddress (Address_address YCRV) = Ok c
  ∧ toChecksumAddress NATIVE_ASSET = Ok NATIVE_ASSET
  ∧ c ≠ NATIVE_ASSET
  ∧ fst (TokenDetails_init YCRV sample_web3 empty_world)
    = result_bind (eth_symbol sample_web3 c) (fun sym =>
      result_bind (eth_decimals sample_web3 c) (fun dec =>
      Ok (mkTokenDetails c sym dec)))
  ∧ eth_calls (trace (snd (TokenDetails_init YCRV sample_web3 empty_world)))
    = eth_calls (trace empty_world)
      ++ (c, "symbol") :: match eth_symbol sample_web3 c with
                          | Ok _ => [(c, "decimals")]
                          | Raise _ => []
                          end.
Proof.
  cbv zeta.
  assert (Address_address YCRV ≠ NATIVE_ASSET) as Hne by discriminate.
  split; [reflexivity|]. split; [reflexivity|]. split; [exact Hne|].
  apply (@token_details_reads_symbol_then_decimals plain_externals YCRV sample_web3
           empty_world (Address_address YCRV) NATIVE_ASSET eq_refl eq_refl Hne).
Defined.

(** X7 on the query service whose second row has no [token] column. *)
Lemma fetch_missing_tokens_missing_column_witness :
  let rows1 : list Row := [ {["token" := Address_address BLUE]} ] in
  let row : Row := {["symbol" := "BAND"]} in
  let rows2 : list Row := [ {["token" := Address_address YCRV]} ] in
  refresh malformed_dune (v2_query MAINNET) = Ok (rows1 ++ row :: rows2)
  ∧ Forall (fun r => ∃ a, row_token r = Ok a) rows1
  ∧ row !! "token" = None
  ∧ fst (fetch_missing_tokens malformed_dune MAINNET empty_world) = Raise (KeyError "token").
Proof.
  cbv zeta.
  assert (Forall (fun r : Row => ∃ a, row_token r = Ok a)
            [ {["token" := Address_address BLUE]} ]) as Hrows1.
  { constructor; [|constructor]. exists BLUE. reflexivity. }
  split; [reflexivity|]. split; [exact Hrows1|]. split; [reflexivity|].
  apply (@fetch_missing_tokens_missing_column plain_externals malformed_dune MAINNET
           empty_world [ {["token" := Address_address BLUE]} ] {["symbol" := "BAND"]}
           [ {["token" := Address_address YCRV]} ] eq_refl Hrows1 eq_refl).
Defined.

(** X9 on the query service that is down. *)
Lemma source_failure_aborts_run_witness :
  let e := OtherError "query service unreachable" in
  fst (fetch_missing_tokens failing_dune GNOSIS empty_world) = Raise e
  ∧ ∃ w', run_missing_tokens GNOSIS sample_web3 failing_dune empty_world = (Raise e, w')
      ∧ files w' = files empty_world ∧ dirs w' = dirs empty_world
      ∧ resolver_calls (trace w') = resolver_calls (trace empty_world)
      ∧ eth_calls (trace w') = eth_calls (trace empty_world).
Proof.
  cbv zeta. split; [reflexivity|].
  apply (@source_failure_aborts_run plain_externals GNOSIS sample_web3 failing_dune
           empty_world (OtherError "query service unreachable") eq_refl).
Defined.

(** X11 on two tokens in both orders, one of which fails. *)
Lemma projection_independent_of_iteration_order_witness :
  [BAND; BLUE] ≡ₚ [BLUE; BAND]
  ∧ ∃ token_details skipped1 skipped2 w1 w2,
      resolve_tokens sample_web3 [BAND; BLUE] ∅ [] empty_world
      = (Ok (token_details, skipped1), w1)
      ∧ resolve_tokens sample_web3 [BLUE; BAND] ∅ [] empty_world
        = (Ok (token_details, skipped2), w2)
      ∧ skipped1 ≡ₚ skipped2
      ∧ ∀ chain l,
          res_v1_of chain token_details skipped1 l
          = res_v1_of chain token_details skipped2 l
          ∧ res_v2_of token_details skipped1 l = res_v2_of token_details skipped2 l.
Proof.
  split; [apply perm_swap|].
  apply (@projection_independent_of_iteration_order plain_externals sample_web3
           [BAND; BLUE] [BLUE; BAND] empty_world (perm_swap BLUE BAND [])).
Defined.

(** X12 on the sample batch. *)
Lemma run_reads_at_most_twice_per_address_witness :
  (∀ X : gset Address, set_iter X ≡ₚ elements X)
  ∧ ∃ reads,
      eth_calls (trace (snd (process_missing_tokens MAINNET sample_web3 sample_batch
                               empty_world)))
      = eth_calls (trace empty_world) ++ reads
      ∧ length reads ≤ 2 * size (get_all_tokens sample_batch)
      ∧ ∀ c m, (c, m) ∈ reads →
          (m = "symbol" ∨ m = "decimals")
          ∧ toChecksumAddress NATIVE_ASSET ≠ Ok c
          ∧ ∃ t, (t ∈ v1 sample_batch ∨ t ∈ v2 sample_batch)
                 ∧ toChecksumAddress (Address_address t) = Ok c.
Proof.
  split; [intros X; reflexivity|].
  apply (@run_reads_at_most_twice_per_address plain_externals sample_web3
           (fun X => reflexivity (elements X)) MAINNET sample_batch empty_world).
Defined.

(** X13 on the sample batch and a network the formatter does not know. *)
Lemma run_touches_only_output_files_witness :
  let w' := snd (process_missing_tokens (OTHER "polygon") sample_web3 sample_batch
                   empty_world) in
  (∀ X : gset Address, set_iter X ≡ₚ elements X)
  ∧ (∀ p, p ≠ "./out/missing-tokens-v1.txt" → p ≠ "./out/missing-tokens-v2.txt" →
          files w' !! p = files empty_world !! p)
  ∧ dirs empty_world ⊆ dirs w'
  ∧ dirs w' ⊆ {["./out"]} ∪ dirs empty_world.
Proof.
  cbv zeta. split; [intros X; reflexivity|].
  apply (@run_touches_only_output_files plain_externals sample_web3
           (fun X => reflexivity (elements X)) (OTHER "polygon") sample_batch empty_world).
Defined.

(** X14 on the address the two lists of the sample batch share. *)
Lemma shared_address_resolved_once_rendered_twice_witness :
  let d := mkTokenDetails (Address_address BLUE) "BLUE" 18 in
  (∀ X : gset Address, set_iter X ≡ₚ elements X)
  ∧ supported GNOSIS = true
  ∧ BLUE ∈ v1 sample_batch
  ∧ BLUE ∈ v2 sample_batch
  ∧ resolved sample_web3 BLUE = Some d
  ∧ ∃ row1 rows1 rows2 calls w',
      process_missing_tokens GNOSIS sample_web3 sample_batch empty_world = (Ok tt, w')
      ∧ files w' !! "./out/missing-tokens-v1.txt" = Some (file_content rows1)
      ∧ files w' !! "./out/missing-tokens-v2.txt" = Some (file_content rows2)
      ∧ as_v1_string d GNOSIS = Ok row1
      ∧ row1 ∈ rows1
      ∧ as_v2_string d ∈ rows2
      ∧ resolver_calls (trace w') = resolver_calls (trace empty_world) ++ calls
      ∧ NoDup calls
      ∧ BLUE ∈ calls.
Proof.
  cbv zeta.
  assert (BLUE ∈ v1 sample_batch) as Hin1 by (simpl; repeat constructor).
  assert (BLUE ∈ v2 sample_batch) as Hin2 by (simpl; repeat constructor).
  split; [intros X; reflexivity|]. split; [reflexivity|].
  split; [exact Hin1|]. split; [exact Hin2|]. split; [reflexivity|].
  apply (@shared_address_resolved_once_rendered_twice plain_externals sample_web3
           (fun X => reflexivity (elements X)) GNOSIS sample_batch empty_world BLUE
           (mkTokenDetails (Address_address BLUE) "BLUE" 18) eq_refl Hin1 Hin2 eq_refl).
Defined.

(** X15 on the sample batch. *)
Lemma every_entry_rendered_or_skipped_witness :
  (∀ X : gset Address, set_iter X ≡ₚ elements X)
  ∧ ∃ token_details skipped w1,
      resolve_tokens sample_web3 (set_iter (get_all_tokens sample_batch)) ∅ [] empty_world
      = (Ok (token_details, skipped), w1)
      ∧ (∃ rows2, res_v2_of token_details skipped (v2 sample_batch) = Ok rows2
                  ∧ length rows2
                    + length (filter (fun t => t ∈ skipped) (v2 sample_batch))
                    = length (v2 sample_batch))
      ∧ (∀ chain rows1,
           res_v1_of chain token_details skipped (v1 sample_batch) = Ok rows1 →
           length rows1 + length (filter (fun t => t ∈ skipped) (v1 sample_batch))
           = length (v1 sample_batch)).
Proof.
  split; [intros X; reflexivity|].
  apply (@every_entry_rendered_or_skipped plain_externals sample_web3
           (fun X => reflexivity (elements X)) sample_batch empty_world).
Defined.
